(** * Cloudflare Download Link Stabilizer: a model of [src/worker.js]

    The worker is a stateless forwarding proxy.  [handleRequest] validates the
    target URL carried in the request path, [proxyDownload] builds the upstream
    request, calls [fetchWithRetry] and normalises the response headers, and
    [extractFilename] derives the name put in [Content-Disposition].

    Conventions of the embedding.
    - A JavaScript string is the list of its UTF-16 code units ([jsstring]).
    - [undefined]/[null] are [None]; truthiness of a string is non-emptiness.
    - Code that can throw lives in the monad [M]: a computation threads the
      log of the network events it caused (upstream fetches and back-off
      sleeps) and ends normally or abruptly with the thrown value.
    - What the worker gets from its host (the URL parser, the clock, the
      upstream network, the host's check of header values, the text of the
      host's own error messages, the status text a response gets when none
      is given) is a parameter: see [Runtime] and [Network].
      The builtins small enough to be written out ([decodeURIComponent],
      [encodeURIComponent], [split], [replace] with a character class, the
      header list of [Headers]) are written out from their standards.
    - Logging with [console.error] is left out; [request.clone()] is the
      request itself; the 30 s timeout of an attempt is one of the ways the
      attempt fails. *)

From Stdlib Require Import List NArith ZArith Arith Lia Bool String Ascii.
Import ListNotations.

(** ** JavaScript strings *)

Definition jsstring := list N.

(** The code units of an ASCII literal. *)
Definition js (s : string) : jsstring :=
  map N_of_ascii (list_ascii_of_string s).

Fixpoint jseqb (a b : jsstring) : bool :=
  match a, b with
  | [], [] => true
  | x :: a', y :: b' => N.eqb x y && jseqb a' b'
  | _, _ => false
  end.

(** [s.startsWith(p)] *)
Fixpoint startsWith (p s : jsstring) : bool :=
  match p, s with
  | [], _ => true
  | x :: p', y :: s' => N.eqb x y && startsWith p' s'
  | _ :: _, [] => false
  end.

(** [s.includes(c)] for a one-character pattern [c]. *)
Definition includes (c : N) (s : jsstring) : bool :=
  existsb (N.eqb c) s.

(** [s.split(c)] for a one-character separator: never the empty list. *)
Fixpoint split (c : N) (s : jsstring) : list jsstring :=
  match s with
  | [] => [[]]
  | x :: s' =>
      if N.eqb x c then [] :: split c s'
      else match split c s' with
           | [] => [[x]]
           | seg :: segs => (x :: seg) :: segs
           end
  end.

(** [a[a.length - 1]]: the last element, [undefined] on the empty array. *)
Fixpoint lastElement (a : list jsstring) : option jsstring :=
  match a with
  | [] => None
  | [x] => Some x
  | _ :: a' => lastElement a'
  end.

(** [s.slice(1)] *)
Definition slice1 (s : jsstring) : jsstring := tl s.

(** Truthiness of a value that is a string or [undefined]/[null]. *)
Definition truthy (v : option jsstring) : bool :=
  match v with
  | Some (_ :: _) => true
  | _ => false
  end.

Definition inRange (lo hi c : N) : bool := N.leb lo c && N.leb c hi.

Definition isDigit (c : N) : bool := inRange 48 57 c.
Definition isUpper (c : N) : bool := inRange 65 90 c.
Definition isLower (c : N) : bool := inRange 97 122 c.
Definition isAlnum (c : N) : bool := isDigit c || isUpper c || isLower c.

(** ASCII lower-casing, as header names are compared. *)
Definition lowerChar (c : N) : N := if isUpper c then (c + 32)%N else c.
Definition toLower (s : jsstring) : jsstring := map lowerChar s.

(** The decimal numeral of a non-negative integer, as a template literal
    prints a number. *)
Fixpoint digits (u : Decimal.uint) : jsstring :=
  match u with
  | Decimal.Nil => []
  | Decimal.D0 u' => 48%N :: digits u'
  | Decimal.D1 u' => 49%N :: digits u'
  | Decimal.D2 u' => 50%N :: digits u'
  | Decimal.D3 u' => 51%N :: digits u'
  | Decimal.D4 u' => 52%N :: digits u'
  | Decimal.D5 u' => 53%N :: digits u'
  | Decimal.D6 u' => 54%N :: digits u'
  | Decimal.D7 u' => 55%N :: digits u'
  | Decimal.D8 u' => 56%N :: digits u'
  | Decimal.D9 u' => 57%N :: digits u'
  end.

Definition decimal (n : N) : jsstring := digits (N.to_uint n).

(** ** [decodeURIComponent] and [encodeURIComponent] (ECMA-262, 19.2.6) *)

Definition hexval (c : N) : option N :=
  if isDigit c then Some (c - 48)%N
  else if inRange 65 70 c then Some (c - 55)%N
  else if inRange 97 102 c then Some (c - 87)%N
  else None.

(** A string cut into literal code units and [%XX] escapes. *)
Inductive token : Type :=
  | Lit (c : N)
  | Esc (byte : N).

(** [None]: a [%] that is not followed by two hexadecimal digits. *)
Fixpoint tokens (s : jsstring) : option (list token) :=
  match s with
  | [] => Some []
  | c :: rest =>
      if N.eqb c 37 then
        match rest with
        | h1 :: h2 :: rest' =>
            match hexval h1, hexval h2 with
            | Some a, Some b =>
                option_map (cons (Esc (16 * a + b)%N)) (tokens rest')
            | _, _ => None
            end
        | _ => None
        end
      else option_map (cons (Lit c)) (tokens rest)
  end.

Definition utf16 (cp : N) : jsstring :=
  if N.ltb cp 65536 then [cp]
  else [(55296 + (cp - 65536) / 1024)%N; (56320 + (cp - 65536) mod 1024)%N].

Definition cont (b : N) : bool := inRange 128 191 b.

(** The second byte of a well-formed three-byte sequence (no overlong form,
    no surrogate). *)
Definition second3 (b b1 : N) : bool :=
  if N.eqb b 224 then inRange 160 191 b1
  else if N.eqb b 237 then inRange 128 159 b1
  else cont b1.

(** The second byte of a well-formed four-byte sequence (no overlong form,
    nothing above U+10FFFF). *)
Definition second4 (b b1 : N) : bool :=
  if N.eqb b 240 then inRange 144 191 b1
  else if N.eqb b 244 then inRange 128 143 b1
  else cont b1.

(** Escapes are read as UTF-8; every byte of a multi-byte character must
    itself be an escape.  [None] is the [URIError]. *)
Fixpoint assemble (ts : list token) : option jsstring :=
  match ts with
  | [] => Some []
  | Lit c :: ts' => option_map (cons c) (assemble ts')
  | Esc b :: ts' =>
      if N.ltb b 128 then option_map (cons b) (assemble ts')
      else if inRange 194 223 b then
        match ts' with
        | Esc b1 :: r =>
            if cont b1
            then option_map (app (utf16 ((b - 192) * 64 + (b1 - 128))%N))
                            (assemble r)
            else None
        | _ => None
        end
      else if inRange 224 239 b then
        match ts' with
        | Esc b1 :: Esc b2 :: r =>
            if second3 b b1 && cont b2
            then option_map
                   (app (utf16 ((b - 224) * 4096 + (b1 - 128) * 64
                                + (b2 - 128))%N))
                   (assemble r)
            else None
        | _ => None
        end
      else if inRange 240 244 b then
        match ts' with
        | Esc b1 :: Esc b2 :: Esc b3 :: r =>
            if second4 b b1 && cont b2 && cont b3
            then option_map
                   (app (utf16 ((b - 240) * 262144 + (b1 - 128) * 4096
                                + (b2 - 128) * 64 + (b3 - 128))%N))
                   (assemble r)
            else None
        | _ => None
        end
      else None
  end.

Definition decodeURIComponent (s : jsstring) : option jsstring :=
  match tokens s with
  | Some ts => assemble ts
  | None => None
  end.

Definition hexDigit (n : N) : N :=
  if N.ltb n 10 then (48 + n)%N else (55 + n)%N.

Definition pct (b : N) : jsstring := [37%N; hexDigit (b / 16); hexDigit (b mod 16)].

Definition utf8 (cp : N) : list N :=
  if N.ltb cp 128 then [cp]
  else if N.ltb cp 2048 then [(192 + cp / 64)%N; (128 + cp mod 64)%N]
  else if N.ltb cp 65536 then
    [(224 + cp / 4096)%N; (128 + (cp / 64) mod 64)%N; (128 + cp mod 64)%N]
  else
    [(240 + cp / 262144)%N; (128 + (cp / 4096) mod 64)%N;
     (128 + (cp / 64) mod 64)%N; (128 + cp mod 64)%N].

(** The characters [encodeURIComponent] leaves alone:
    letters, digits and [- _ . ! ~ * ' ( )]. *)
Definition unreserved (c : N) : bool :=
  isAlnum c
  || existsb (N.eqb c) [45; 95; 46; 33; 126; 42; 39; 40; 41]%N.

(** [None] is the [URIError] raised on a lone surrogate. *)
Fixpoint encodeURIComponent (s : jsstring) : option jsstring :=
  match s with
  | [] => Some []
  | c :: rest =>
      if unreserved c then option_map (cons c) (encodeURIComponent rest)
      else if inRange 56320 57343 c then None
      else if inRange 55296 56319 c then
        match rest with
        | c2 :: rest' =>
            if inRange 56320 57343 c2
            then option_map
                   (app (flat_map pct
                           (utf8 ((c - 55296) * 1024 + (c2 - 56320) + 65536)%N)))
                   (encodeURIComponent rest')
            else None
        | [] => None
        end
      else option_map (app (flat_map pct (utf8 c))) (encodeURIComponent rest)
  end.


(** [s.replace(/[...]/g, '_')] for a character class given as a predicate. *)
Definition replaceClass (inClass : N -> bool) (s : jsstring) : jsstring :=
  map (fun c => if inClass c then 95%N else c) s.

(** ** [Headers]: the header list of the Fetch standard

    Names are compared without regard to ASCII case; [get] joins the values
    of a repeated name with a comma and a space; [set] overwrites the first
    entry of the name and drops its other entries, or appends. *)
Module Headers.

Definition t := list (jsstring * jsstring).

Definition sameName (a b : jsstring) : bool :=
  jseqb (toLower a) (toLower b).

Definition named (name : jsstring) (e : jsstring * jsstring) : bool :=
  sameName (fst e) name.

Fixpoint joinValues (vs : list jsstring) : jsstring :=
  match vs with
  | [] => []
  | [v] => v
  | v :: vs' => v ++ js ", " ++ joinValues vs'
  end.

Definition get (h : t) (name : jsstring) : option jsstring :=
  match filter (named name) h with
  | [] => None
  | es => Some (joinValues (map snd es))
  end.

Definition has (h : t) (name : jsstring) : bool :=
  existsb (named name) h.

Fixpoint overwrite (h : t) (name value : jsstring) : t :=
  match h with
  | [] => []
  | e :: h' =>
      if named name e
      then (fst e, value) :: filter (fun e' => negb (named name e')) h'
      else e :: overwrite h' name value
  end.

Definition set (h : t) (name value : jsstring) : t :=
  if has h name then overwrite h name value else h ++ [(name, value)].

End Headers.

(** ** Requests and responses *)

Inductive Body : Type :=
  | BodyText (text : jsstring)       (* built from a string *)
  | BodyStream (bytes : list N).     (* a stream, relayed as it is *)

(** The request the worker receives, with the pathname of its URL taken
    (line 6; the URL of a received request always parses). *)
Record IncomingRequest : Type := {
  in_method : jsstring;
  in_pathname : jsstring;
  in_headers : Headers.t;
  in_body : option Body
}.

(** The arguments of [new Request(targetUrl, { method, headers, body })]. *)
Record UpstreamRequest : Type := {
  up_url : jsstring;
  up_method : jsstring;
  up_headers : Headers.t;
  up_body : option Body
}.

Record Response : Type := {
  status : N;
  statusText : jsstring;
  headers : Headers.t;
  body : option Body
}.

(** [response.ok] *)
Definition ok (r : Response) : bool := inRange 200 299 (status r).

(** ** What the host provides *)

(** The parts of a parsed URL the worker reads.  [url_searchParams] is the
    decoded list of name-value pairs behind [urlObj.searchParams]. *)
Record URL : Type := {
  url_pathname : jsstring;
  url_hostname : jsstring;
  url_searchParams : list (jsstring * jsstring)
}.

(** [params.get(name)]: the value of the first pair of that name. *)
Fixpoint searchParams_get (params : list (jsstring * jsstring))
                          (name : jsstring) : option jsstring :=
  match params with
  | [] => None
  | (k, v) :: params' =>
      if jseqb k name then Some v else searchParams_get params' name
  end.

(** Errors the host itself raises, each with the host's own message. *)
Inductive HostFault : Type :=
  | InvalidRequest        (* [new Request] on arguments the host refuses *)
  | InvalidHeaderValue    (* [headers.set] on a value the host refuses *)
  | MalformedURI          (* [encodeURIComponent] on a lone surrogate *)
  | PropertyOfUndefined.  (* reading [.message] of [undefined] *)

Record Runtime : Type := {
  (** [new URL(s)]; [None] when it throws. *)
  parseURL : jsstring -> option URL;
  (** [Date.now()] for this request (the clock is read at most once). *)
  dateNow : N;
  (** Whether [headers.set] accepts the value. *)
  legalHeaderValue : jsstring -> bool;
  (** Whether [new Request(url, { method, headers, body })] accepts its
      arguments. *)
  requestAccepted : UpstreamRequest -> bool;
  faultMessage : HostFault -> jsstring;
  (** The status text [new Response] gives a response whose [init] has no
      [statusText]: the empty string by the Fetch standard, the reason
      phrase of the status code on Cloudflare's runtime. *)
  defaultStatusText : N -> jsstring
}.

(** ** extractFilename (worker.js, lines 163-204) *)

(** The class of the regular expression of line 188: less-than,
    greater-than, colon, double quote, slash, backslash, bar, question mark
    and star. *)
Definition invalidFilenameChar (c : N) : bool :=
  existsb (N.eqb c) [60; 62; 58; 34; 47; 92; 124; 63; 42]%N.

(** The class of line 195: everything but ASCII letters, digits, the dot
    and the hyphen. *)
Definition invalidHostnameChar (c : N) : bool :=
  negb (isLower c || isUpper c || isDigit c || N.eqb c 46 || N.eqb c 45).

Definition filenameParams : list jsstring :=
  [js "filename"; js "file"; js "name"; js "download"].

(** [!filename || !filename.includes('.')] *)
Definition lacksExtension (filename : option jsstring) : bool :=
  match filename with
  | Some s => negb (truthy filename) || negb (includes 46 s)
  | None => true
  end.

(** The [for ... of] loop over the parameter names, left at the first hit by
    [break]; [filename] is unchanged when no parameter qualifies. *)
Fixpoint scanParams (params : list (jsstring * jsstring))
                    (names : list jsstring)
                    (filename : option jsstring) : option jsstring :=
  match names with
  | [] => filename
  | param :: names' =>
      let paramValue := searchParams_get params param in
      match paramValue with
      | Some v =>
          if truthy paramValue && includes 46 v then paramValue
          else scanParams params names' filename
      | None => scanParams params names' filename
      end
  end.

Section Filename.

Variable rt : Runtime.

(** The [try] block: [None] when it throws. *)
Definition extractFilename_try (url : jsstring) : option jsstring :=
  match parseURL rt url with
  | None => None
  | Some urlObj =>
      let pathname := url_pathname urlObj in
      let segments :=
        filter (fun segment => Nat.ltb 0 (List.length segment))
               (split 47 pathname) in
      let filename := lastElement segments in
      let filename :=
        if lacksExtension filename
        then scanParams (url_searchParams urlObj) filenameParams filename
        else filename in
      let cleaned :=
        match filename with
        | Some s =>
            if truthy filename
            then option_map Some
                   (decodeURIComponent (replaceClass invalidFilenameChar s))
            else Some filename
        | None => Some filename
        end in
      let generated :=
        js "download_"
        ++ replaceClass invalidHostnameChar (url_hostname urlObj)
        ++ js "_" ++ decimal (dateNow rt) in
      match cleaned with
      | None => None
      | Some None => Some generated
      | Some (Some s) =>
          if lacksExtension (Some s) then Some generated else Some s
      end
  end.

Definition extractFilename (url : jsstring) : jsstring :=
  match extractFilename_try url with
  | Some filename => filename
  | None => js "download_" ++ decimal (dateNow rt)
  end.

End Filename.

(** ** Effects *)

(** What the worker does to the outside world, in order. *)
Inductive Event : Type :=
  | Fetch (request : UpstreamRequest)
  | Sleep (milliseconds : N).

Definition Log := list Event.

Definition isFetch (e : Event) : bool :=
  match e with Fetch _ => true | Sleep _ => false end.

(** Number of upstream fetch attempts recorded in a log. *)
Definition fetchCount (log : Log) : nat := List.length (filter isFetch log).

(** The back-off delays recorded in a log, in order. *)
Fixpoint sleeps (log : Log) : list N :=
  match log with
  | [] => []
  | Sleep ms :: log' => ms :: sleeps log'
  | Fetch _ :: log' => sleeps log'
  end.

(** A thrown value: an error object with its [message], or [undefined]
    (the initial value of [lastError] in [fetchWithRetry]). *)
Inductive Thrown : Type :=
  | ErrorObject (message : jsstring)
  | Undefined.

Inductive Completion (A : Type) : Type :=
  | Normal (a : A)
  | Abrupt (e : Thrown).

Arguments Normal {A} a.
Arguments Abrupt {A} e.

(** The upstream, seen from the worker: the outcome of its [n]-th call of
    [fetch] (counted from 0) with a given request.  [Abrupt] is a failure of
    transport (network error, the 30 s timeout, abort); [Normal] is an HTTP
    response of whatever status. *)
Definition Network := nat -> UpstreamRequest -> Completion Response.

Definition M (A : Type) : Type := Log -> Log * Completion A.

Definition ret {A} (a : A) : M A := fun log => (log, Normal a).

Definition throw {A} (e : Thrown) : M A := fun log => (log, Abrupt e).

Definition bind {A B} (c : M A) (k : A -> M B) : M B :=
  fun log =>
    match c log with
    | (log', Normal a) => k a log'
    | (log', Abrupt e) => (log', Abrupt e)
    end.

Definition tryCatch {A} (c : M A) (handler : Thrown -> M A) : M A :=
  fun log =>
    match c log with
    | (log', Normal a) => (log', Normal a)
    | (log', Abrupt e) => handler e log'
    end.

Notation "x <- c ;; k" := (bind c (fun x => k))
  (at level 61, c at next level, right associativity).

(** [option] read as "returns or throws the host's error". *)
Definition orThrow {A} (v : option A) (e : Thrown) : M A :=
  match v with
  | Some a => ret a
  | None => throw e
  end.

(** ** fetchWithRetry (worker.js, lines 136-161) *)

Section Worker.

Variable rt : Runtime.
Variable net : Network.
(** The page of lines 206-458, returned for the root path. *)
Variable getInterface : jsstring.

Definition hostError {A} (f : HostFault) : M A :=
  throw (ErrorObject (faultMessage rt f)).

(** [await fetch(requestClone, { signal: AbortSignal.timeout(30000) })] *)
Definition fetch (request : UpstreamRequest) : M Response :=
  fun log => (log ++ [Fetch request], net (fetchCount log) request).

(** [await new Promise(resolve => setTimeout(resolve, ms))] *)
Definition sleep (ms : N) : M unit :=
  fun log => (log ++ [Sleep ms], Normal tt).

(** The [for] loop at index [i] with [remaining] iterations to go, that is
    [remaining = maxRetries + 1 - i]; at [0] the loop is over and
    [throw lastError] runs. *)
Fixpoint retryLoop (request : UpstreamRequest) (maxRetries : nat)
                   (remaining i : nat) (lastError : Thrown)
  : M Response :=
  match remaining with
  | O => throw lastError
  | S remaining' =>
      tryCatch
        (response <- fetch request ;; ret response)
        (fun error =>
           _ <- (if Nat.ltb i maxRetries
                 then sleep (2 ^ N.of_nat i * 1000)%N
                 else ret tt) ;;
           retryLoop request maxRetries remaining' (S i) error)
  end.

Definition fetchWithRetry (request : UpstreamRequest) (maxRetries : nat)
  : M Response :=
  retryLoop request maxRetries (S maxRetries) 0 Undefined.

(** ** proxyDownload (worker.js, lines 42-134) *)

Definition relevantHeaders : list jsstring :=
  [js "range"; js "user-agent"; js "accept"; js "accept-encoding";
   js "cache-control"; js "if-modified-since"; js "if-none-match"].

Definition importantHeaders : list jsstring :=
  [js "content-type"; js "content-length"; js "content-range";
   js "accept-ranges"; js "last-modified"; js "etag"; js "cache-control";
   js "expires"].

Definition userAgent : jsstring :=
  js "Cloudflare-Download-Link-Stabilizer/1.0".

(** The two [forEach] loops: copy each listed header whose value is
    truthy. *)
Definition copyHeaders (names : list jsstring) (source target : Headers.t)
  : Headers.t :=
  fold_left
    (fun acc header =>
       match Headers.get source header with
       | Some value =>
           if truthy (Some value) then Headers.set acc header value
           else acc
       | None => acc
       end)
    names target.

(** [new Request(...)]: the host may refuse the arguments (a target that
    is no URL, for one). *)
Definition newRequest (r : UpstreamRequest) : M UpstreamRequest :=
  if requestAccepted rt r then ret r else hostError InvalidRequest.

(** [headers.set] with the host's check of the value.  The other calls of
    [set] pass constants or values read from a [Headers] object, which the
    host has accepted already; they are written with [Headers.set]. *)
Definition setChecked (h : Headers.t) (name value : jsstring)
  : M Headers.t :=
  if legalHeaderValue rt value then ret (Headers.set h name value)
  else hostError InvalidHeaderValue.

(** The value of line 111. *)
Definition contentDisposition (filename encoded : jsstring) : jsstring :=
  js "attachment; filename=" ++ [34%N] ++ filename ++ [34%N]
  ++ js "; filename*=UTF-8''" ++ encoded.

Definition corsHeaders : list (jsstring * jsstring) :=
  [(js "Access-Control-Allow-Origin", js "*");
   (js "Access-Control-Allow-Methods", js "GET, HEAD, OPTIONS");
   (js "Access-Control-Allow-Headers", js "Range, Content-Type");
   (js "Access-Control-Expose-Headers",
    js "Content-Length, Content-Range, Accept-Ranges, Content-Disposition")].

Definition setAll (h : Headers.t) (entries : list (jsstring * jsstring))
  : Headers.t :=
  fold_left (fun acc e => Headers.set acc (fst e) (snd e)) entries h.

Definition upstreamError (response : Response) : Thrown :=
  ErrorObject (js "Upstream server responded with "
               ++ decimal (status response) ++ js ": "
               ++ statusText response).

(** Lines 44-72: the arguments given to [new Request]. *)
Definition upstreamRequestFor (originalRequest : IncomingRequest)
                              (targetUrl : jsstring) : UpstreamRequest :=
  let upstreamHeaders :=
    copyHeaders relevantHeaders (in_headers originalRequest) [] in
  let upstreamHeaders :=
    Headers.set upstreamHeaders (js "User-Agent") userAgent in
  {| up_url := targetUrl;
     up_method := in_method originalRequest;
     up_headers := upstreamHeaders;
     up_body :=
       if negb (jseqb (in_method originalRequest) (js "GET"))
       then in_body originalRequest
       else None |}.

(** Lines 82-106: the upstream headers worth keeping, and the promise of
    range support. *)
Definition copiedHeaders (response : Response) : Headers.t :=
  let responseHeaders :=
    copyHeaders importantHeaders (headers response) [] in
  if negb (Headers.has responseHeaders (js "accept-ranges"))
  then Headers.set responseHeaders (js "accept-ranges") (js "bytes")
  else responseHeaders.

(** Lines 110-112. *)
Definition withContentDisposition (responseHeaders : Headers.t)
                                  (filename : jsstring) : M Headers.t :=
  if truthy (Some filename)
  then
    encoded <- orThrow (encodeURIComponent filename)
                       (ErrorObject (faultMessage rt MalformedURI)) ;;
    setChecked responseHeaders (js "Content-Disposition")
               (contentDisposition filename encoded)
  else ret responseHeaders.

(** [new Response(body, { status, statusText, headers })]; a [statusText]
    that is left out is the host's default for the status code. *)
Definition newResponse (responseBody : option Body) (code : N)
                       (text : option jsstring) (responseHeaders : Headers.t)
  : Response :=
  {| status := code;
     statusText := match text with
                   | Some t => t
                   | None => defaultStatusText rt code
                   end;
     headers := responseHeaders;
     body := responseBody |}.

Definition proxyDownload (originalRequest : IncomingRequest)
                         (targetUrl : jsstring) : M Response :=
  upstreamRequest <-
    newRequest (upstreamRequestFor originalRequest targetUrl) ;;
  response <- fetchWithRetry upstreamRequest 3 ;;
  if negb (ok response) && negb (N.eqb (status response) 206)
  then throw (upstreamError response)
  else
    let responseHeaders := copiedHeaders response in
    let filename := extractFilename rt targetUrl in
    responseHeaders <- withContentDisposition responseHeaders filename ;;
    let responseHeaders := setAll responseHeaders corsHeaders in
    if jseqb (in_method originalRequest) (js "OPTIONS")
    then ret (newResponse None 200 None responseHeaders)
    else ret (newResponse (body response) (status response)
                          (Some (statusText response)) responseHeaders).

(** ** handleRequest (worker.js, lines 5-40) *)

(** [new Response(text, { status })]: a string body is given the
    plain-text content type. *)
Definition textResponse (text : jsstring) (code : N) : Response :=
  newResponse (Some (BodyText text)) code None
              [(js "content-type", js "text/plain;charset=UTF-8")].

(** The [catch] of lines 36-39. *)
Definition onProxyError (error : Thrown) : M Response :=
  match error with
  | ErrorObject message =>
      ret (textResponse (js "Proxy error: " ++ message) 500)
  | Undefined => hostError PropertyOfUndefined
  end.

Definition handleRequest (request : IncomingRequest) : M Response :=
  if jseqb (in_pathname request) (js "/")
  then ret (newResponse (Some (BodyText getInterface)) 200 None
                        [(js "Content-Type", js "text/html")])
  else
    let targetUrl := slice1 (in_pathname request) in
    if negb (truthy (Some targetUrl))
    then ret (textResponse (js "No URL provided") 400)
    else
      match decodeURIComponent targetUrl with
      | None => ret (textResponse (js "Invalid URL encoding") 400)
      | Some decodedUrl =>
          if negb (startsWith (js "http://") decodedUrl)
             && negb (startsWith (js "https://") decodedUrl)
          then ret (textResponse
                      (js "Invalid URL - must start with http:// or https://")
                      400)
          else tryCatch (proxyDownload request decodedUrl) onProxyError
      end.

End Worker.

(** ** A reference host, for evaluating the worker on concrete requests

    [plainURL] follows the URL standard on plain URLs only: scheme [http] or
    [https], a lower-case host name without port or credentials, a path
    written with characters the parser leaves as they are and without dot
    segments, a query without [+] and escapes.  On these it returns what
    [new URL] returns.  It refuses everything else, which the real parser
    often accepts: it stands for the host in examples, never in a statement
    about all URLs. *)

Fixpoint breakAt (stop : N -> bool) (s : jsstring) : jsstring * jsstring :=
  match s with
  | [] => ([], [])
  | c :: s' =>
      if stop c then ([], s)
      else let (a, b) := breakAt stop s' in (c :: a, b)
  end.

Fixpoint stripPrefix (p s : jsstring) : option jsstring :=
  match p, s with
  | [], _ => Some s
  | x :: p', y :: s' => if N.eqb x y then stripPrefix p' s' else None
  | _ :: _, [] => None
  end.

(** Lower-case letters and digits, with single dots and hyphens between
    them. *)
Fixpoint plainHost (afterPunct : bool) (s : jsstring) : bool :=
  match s with
  | [] => negb afterPunct
  | c :: s' =>
      if isLower c || isDigit c then plainHost false s'
      else if N.eqb c 46 || N.eqb c 45 then negb afterPunct && plainHost true s'
      else false
  end.

(** A host whose last label ends in a letter is not read as an IPv4
    address. *)
Definition endsInLetter (s : jsstring) : bool :=
  match rev s with
  | c :: _ => isLower c
  | [] => false
  end.

Definition plainPathChar (c : N) : bool :=
  isAlnum c || existsb (N.eqb c) (js "-._~!$&'()*+,;=:@/%").

Definition plainQueryChar (c : N) : bool :=
  isAlnum c || existsb (N.eqb c) (js "-._~=&").

(** Segments the parser could take for [.] or [..], escaped or not. *)
Definition dotLike (segment : jsstring) : bool :=
  match segment with
  | c :: _ => N.eqb c 46 || N.eqb c 37
  | [] => false
  end.

(** The pairs of a query without [+] and escapes. *)
Definition queryPairs (query : jsstring) : list (jsstring * jsstring) :=
  map (fun piece => let (k, v) := breakAt (N.eqb 61) piece in (k, tl v))
      (filter (fun piece => Nat.ltb 0 (List.length piece)) (split 38 query)).

Definition plainURL (s : jsstring) : option URL :=
  let afterScheme :=
    match stripPrefix (js "https://") s with
    | Some r => Some r
    | None => stripPrefix (js "http://") s
    end in
  match afterScheme with
  | None => None
  | Some rest =>
      let (host, rest1) :=
        breakAt (fun c => N.eqb c 47 || N.eqb c 63 || N.eqb c 35) rest in
      let (path, rest2) :=
        breakAt (fun c => N.eqb c 63 || N.eqb c 35) rest1 in
      let (query, fragment) :=
        match rest2 with
        | 63%N :: q => breakAt (N.eqb 35) q
        | _ => ([], rest2)
        end in
      if plainHost true host && endsInLetter host
         && forallb plainPathChar path
         && negb (existsb dotLike (split 47 path))
         && forallb plainQueryChar query
         && forallb (inRange 33 126) fragment
      then Some {| url_pathname := match path with [] => js "/" | _ => path end;
                   url_hostname := host;
                   url_searchParams := queryPairs query |}
      else None
  end.

(** A host as Cloudflare's: header values may not hold NUL, LF or CR, and a
    response built without a status text gets the reason phrase of its code
    (given here for the three codes the worker builds responses with). *)
Definition referenceRuntime (now : N) : Runtime :=
  {| parseURL := plainURL;
     dateNow := now;
     legalHeaderValue :=
       forallb (fun c => negb (N.eqb c 0 || N.eqb c 10 || N.eqb c 13));
     requestAccepted :=
       fun r => match plainURL (up_url r) with Some _ => true | None => false end;
     faultMessage :=
       fun f =>
         match f with
         | InvalidRequest => js "Invalid URL"
         | InvalidHeaderValue => js "Invalid header value."
         | MalformedURI => js "URI malformed"
         | PropertyOfUndefined =>
             js "Cannot read properties of undefined (reading 'message')"
         end;
     defaultStatusText :=
       fun code =>
         if N.eqb code 200 then js "OK"
         else if N.eqb code 400 then js "Bad Request"
         else if N.eqb code 500 then js "Internal Server Error"
         else [] |}.

(** ** Notions used in the statements *)

(** The request passes the checks of lines 9-32 and is proxied to
    [target]. *)
Definition proxiedTo (request : IncomingRequest) (target : jsstring) : Prop :=
  in_pathname request <> js "/"
  /\ decodeURIComponent (slice1 (in_pathname request)) = Some target
  /\ (startsWith (js "http://") target
      || startsWith (js "https://") target) = true.

(** The events of [k] failed attempts numbered [i], [i+1], ...: each fetch
    is followed by its back-off sleep of [2^i] seconds. *)
Fixpoint failedAttempts (request : UpstreamRequest) (i k : nat) : Log :=
  match k with
  | O => []
  | S k' =>
      Fetch request :: Sleep (2 ^ N.of_nat i * 1000)%N
      :: failedAttempts request (S i) k'
  end.

(** The back-off delays after failed attempts [0 .. k-1], in
    milliseconds. *)
Definition backoff (k : nat) : list N :=
  map (fun i => (2 ^ N.of_nat i * 1000)%N) (seq 0 k).

(** The headers of a response built by [proxyDownload] from the upstream
    [response], once the file name and its encoding are known. *)
Definition normalizedHeaders (response : Response)
                             (filename encoded : jsstring) : Headers.t :=
  setAll (Headers.set (copiedHeaders response) (js "Content-Disposition")
                      (contentDisposition filename encoded))
         corsHeaders.

(** The values of the query parameters [filename], [file], [name] and
    [download] that are present, in that order. *)
Definition candidateValues (params : list (jsstring * jsstring))
  : list jsstring :=
  flat_map (fun name => match searchParams_get params name with
                        | Some v => [v]
                        | None => []
                        end)
           filenameParams.

(** ** Requests and upstreams of the examples *)

Definition exampleRequest (method path : string) : IncomingRequest :=
  {| in_method := js method;
     in_pathname := js path;
     in_headers := [(js "Range", js "bytes=0-99");
                    (js "Cookie", js "session=1");
                    (js "User-Agent", js "curl/8.0");
                    (js "Accept", [])];
     in_body := None |}.

Definition exampleResponse (code : N) (text : string) : Response :=
  {| status := code;
     statusText := js text;
     headers := [(js "Content-Type", js "application/zip");
                 (js "Content-Range", js "bytes 0-99/1000");
                 (js "ETag", []);
                 (js "Server", js "nginx")];
     body := Some (BodyStream [80; 75; 3; 4]%N) |}.

(** The download used throughout, as the client writes it and as the
    worker decodes it. *)
Definition zipPath : string := "/https%3A%2F%2Fa.com%2Ffile.zip".
Definition zipURL : jsstring := js "https://a.com/file.zip".
Definition zipUpstream : UpstreamRequest :=
  upstreamRequestFor (exampleRequest "GET" zipPath) zipURL.

(** An upstream that answers every fetch with the same response. *)
Definition answering (response : Response) : Network :=
  fun _ _ => Normal response.

(** An upstream that is unreachable. *)
Definition unreachable : Network :=
  fun n _ => Abrupt (ErrorObject (js "connection refused, attempt "
                                  ++ decimal (N.of_nat n))).

(** An upstream that is unreachable [k] times, then answers. *)
Definition flaky (k : nat) (response : Response) : Network :=
  fun n request =>
    if Nat.ltb n k then unreachable n request else Normal response.

(** ** The form of the page (worker.js, lines 422-435)

    The submit handler reads the URL typed in the form and shows the link
    [origin + '/' + encodeURIComponent(url)].  [None]: [encodeURIComponent]
    throws and no link is shown. *)
Definition proxyFormSubmit (baseUrl downloadUrl : jsstring)
  : option jsstring :=
  match encodeURIComponent downloadUrl with
  | Some encodedUrl => Some (baseUrl ++ js "/" ++ encodedUrl)
  | None => None
  end.

(** ** More notions used in the statements *)

(** A JavaScript string holds 16-bit code units. *)
Definition codeUnits (s : jsstring) : Prop :=
  Forall (fun c => (c < 65536)%N) s.

(** A Unicode scalar value: a code point that is no surrogate. *)
Definition scalar (cp : N) : Prop :=
  (cp < 55296 \/ 57343 < cp)%N /\ (cp < 1114112)%N.

(** The time spent in back-off sleeps, in milliseconds. *)
Definition totalSleep (log : Log) : N := fold_right N.add 0%N (sleeps log).

(** The names of all the headers [proxyDownload] may put in a response. *)
Definition responseHeaderNames : list jsstring :=
  importantHeaders ++ js "Content-Disposition" :: map fst corsHeaders.

(** * Properties *)

(** ** Strings and header lists *)

Lemma jseqb_eq (a b : jsstring) : jseqb a b = true <-> a = b.
Proof.
  revert b; induction a as [|x a IH]; intros [|y b]; simpl;
    try (split; [discriminate | discriminate]); try tauto.
  rewrite andb_true_iff, N.eqb_eq, IH.
  split; [intros [-> ->]; reflexivity | intros E; inversion E; auto].
Qed.

Lemma jseqb_refl (a : jsstring) : jseqb a a = true.
Proof. apply jseqb_eq; reflexivity. Qed.

Lemma jseqb_neq (a b : jsstring) : jseqb a b = false <-> a <> b.
Proof.
  rewrite <- jseqb_eq. destruct (jseqb a b); split; congruence.
Qed.

Lemma truthy_nonempty (s : jsstring) : truthy (Some s) = true <-> s <> [].
Proof. destruct s; simpl; split; congruence. Qed.

Lemma includes_nonempty (c : N) (s : jsstring) :
  includes c s = true -> s <> [].
Proof. destruct s; simpl; [discriminate | intros _ E; discriminate E]. Qed.

Module HeadersFacts.
Import Headers.

Lemma sameName_refl a : sameName a a = true.
Proof. apply jseqb_refl. Qed.

Lemma sameName_sym a b : sameName a b = sameName b a.
Proof.
  unfold sameName.
  destruct (jseqb (toLower b) (toLower a)) eqn:E.
  - apply jseqb_eq in E. rewrite E. apply jseqb_refl.
  - apply jseqb_neq. apply jseqb_neq in E. congruence.
Qed.

(** Names that match denote the same header. *)
Lemma sameName_subst a b c :
  sameName a b = true -> sameName c a = sameName c b.
Proof.
  unfold sameName. intros E. apply jseqb_eq in E. now rewrite E.
Qed.

Lemma named_subst a b :
  sameName a b = true -> forall e, named a e = named b e.
Proof. intros E e. unfold named. now apply sameName_subst. Qed.

Lemma get_subst h a b : sameName a b = true -> get h a = get h b.
Proof.
  intros E. unfold get.
  now rewrite (filter_ext _ _ (named_subst a b E)).
Qed.


Lemma has_filter h name : has h name = false -> filter (named name) h = [].
Proof.
  unfold has. induction h as [|e h IH]; simpl; [reflexivity|].
  destruct (named name e); simpl; [discriminate | exact IH].
Qed.

Lemma filter_drop name n h :
  sameName n name = true ->
  filter (named n) (filter (fun e => negb (named name e)) h) = [].
Proof.
  intros E. induction h as [|e h IH]; simpl; [reflexivity|].
  rewrite <- (named_subst n name E e).
  destruct (named n e) eqn:Q; simpl; [exact IH | now rewrite Q].
Qed.

Lemma filter_keep name n h :
  sameName n name = false ->
  filter (named n) (filter (fun e => negb (named name e)) h)
  = filter (named n) h.
Proof.
  intros E. induction h as [|e h IH]; simpl; [reflexivity|].
  destruct (named name e) eqn:Q; simpl.
  - assert (named n e = false) as ->; [|exact IH].
    unfold named in *.
    rewrite <- (sameName_subst _ _ n Q) in E.
    now rewrite sameName_sym.
  - destruct (named n e); simpl; now rewrite IH.
Qed.

Lemma filter_overwrite_same h name value :
  has h name = true ->
  exists x, filter (named name) (overwrite h name value) = [(x, value)].
Proof.
  unfold has. induction h as [|e h IH]; simpl; [discriminate|].
  destruct (named name e) eqn:Q; simpl.
  - intros _. exists (fst e).
    assert (named name (fst e, value) = true) as -> by exact Q.
    now rewrite (filter_drop name name h (sameName_refl name)).
  - intros H. rewrite Q. exact (IH H).
Qed.

Lemma filter_overwrite_other h name value n :
  sameName n name = false ->
  filter (named n) (overwrite h name value) = filter (named n) h.
Proof.
  intros E. induction h as [|e h IH]; simpl; [reflexivity|].
  destruct (named name e) eqn:Q; simpl.
  - assert (named n e = false) as N1.
    { unfold named in *. rewrite <- (sameName_subst _ _ n Q) in E.
      now rewrite sameName_sym. }
    assert (named n (fst e, value) = false) as -> by exact N1.
    rewrite N1. now apply filter_keep.
  - destruct (named n e); now rewrite IH.
Qed.

(** Reading back the header just set. *)
Lemma get_set_same h name value n :
  sameName n name = true -> get (set h name value) n = Some value.
Proof.
  intros E. rewrite (get_subst _ n name E). unfold get, set.
  destruct (has h name) eqn:H.
  - destruct (filter_overwrite_same h name value H) as [x ->].
    reflexivity.
  - rewrite filter_app, (has_filter h name H). simpl.
    unfold named; simpl. now rewrite sameName_refl.
Qed.

(** [set] leaves the other headers alone. *)
Lemma get_set_other h name value n :
  sameName n name = false -> get (set h name value) n = get h n.
Proof.
  intros E. unfold get, set. destruct (has h name).
  - now rewrite filter_overwrite_other.
  - rewrite filter_app. simpl. unfold named at 2; simpl.
    rewrite sameName_sym, E. now rewrite app_nil_r.
Qed.

Lemma get_set h name value n :
  get (set h name value) n
  = if sameName n name then Some value else get h n.
Proof.
  destruct (sameName n name) eqn:E;
    [now apply get_set_same | now apply get_set_other].
Qed.

End HeadersFacts.

(** The header [n] after the [forEach] of lines 57-62 and 96-101: the
    source's value if [n] is listed and that value is truthy, the target's
    own otherwise. *)
Lemma get_copyHeaders (names : list jsstring) (source : Headers.t) :
  forall (target : Headers.t) (n : jsstring),
    Headers.get (copyHeaders names source target) n
    = if existsb (Headers.sameName n) names
         && truthy (Headers.get source n)
      then Headers.get source n
      else Headers.get target n.
Proof.
  unfold copyHeaders.
  induction names as [|header names IH]; intros target n;
    cbn [fold_left existsb].
  - reflexivity.
  - rewrite IH. clear IH.
    destruct (Headers.sameName n header) eqn:E; cbn [orb].
    + rewrite <- (HeadersFacts.get_subst source n header E).
      destruct (Headers.get source n) as [value|] eqn:G.
      * destruct (truthy (Some value)) eqn:T.
        -- rewrite HeadersFacts.get_set_same by exact E.
           now destruct (existsb (Headers.sameName n) names).
        -- now rewrite andb_false_r.
      * now rewrite andb_false_r.
    + destruct (Headers.get source header) as [value|]; [|reflexivity].
      destruct (truthy (Some value)); [|reflexivity].
      now rewrite HeadersFacts.get_set_other by exact E.
Qed.

(** ** The retry loop *)

Lemma fetchCount_app (a b : Log) :
  fetchCount (a ++ b) = fetchCount a + fetchCount b.
Proof. unfold fetchCount. now rewrite filter_app, length_app. Qed.

Lemma sleeps_app (a b : Log) : sleeps (a ++ b) = sleeps a ++ sleeps b.
Proof.
  induction a as [|[r|ms] a IH]; simpl; [reflexivity | exact IH |].
  now rewrite IH.
Qed.

Lemma fetchCount_failedAttempts request i k :
  fetchCount (failedAttempts request i k) = k.
Proof.
  revert i; induction k as [|k IH]; intros i; [reflexivity|].
  change (S (fetchCount (failedAttempts request (S i) k)) = S k).
  now rewrite IH.
Qed.

Lemma sleeps_failedAttempts request i k :
  sleeps (failedAttempts request i k)
  = map (fun j => (2 ^ N.of_nat j * 1000)%N) (seq i k).
Proof.
  revert i; induction k as [|k IH]; intros i; [reflexivity|].
  cbn [failedAttempts sleeps seq map]. now rewrite IH.
Qed.

(** One turn of the loop. *)
Lemma retryLoop_step (net : Network) (request : UpstreamRequest)
      (R k i : nat) (lastError : Thrown) (log : Log) :
  retryLoop net request R (S k) i lastError log
  = match net (fetchCount log) request with
    | Normal response => (log ++ [Fetch request], Normal response)
    | Abrupt error =>
        if Nat.ltb i R
        then retryLoop net request R k (S i) error
               (log ++ [Fetch request; Sleep (2 ^ N.of_nat i * 1000)%N])
        else retryLoop net request R k (S i) error (log ++ [Fetch request])
    end.
Proof.
  cbn [retryLoop]. unfold tryCatch, bind, fetch, ret.
  destruct (net (fetchCount log) request) as [response|error];
    [reflexivity|].
  destruct (Nat.ltb i R); unfold sleep; [|reflexivity].
  now rewrite <- app_assoc.
Qed.

Lemma retryLoop_done (net : Network) (request : UpstreamRequest)
      (R i : nat) (lastError : Thrown) (log : Log) :
  retryLoop net request R 0 i lastError log = (log, Abrupt lastError).
Proof. reflexivity. Qed.

Lemma fetchCount_attempt (log : Log) (request : UpstreamRequest) (ms : N) :
  fetchCount (log ++ [Fetch request; Sleep ms]) = S (fetchCount log).
Proof.
  rewrite fetchCount_app.
  change (fetchCount [Fetch request; Sleep ms]) with 1. lia.
Qed.

(** Every attempt fails: the loop makes all its remaining attempts, sleeps
    between them and throws the error of the last one. *)
Lemma retryLoop_all_fail (net : Network) (request : UpstreamRequest)
      (err : nat -> Thrown) (R : nat) :
  (forall n, net n request = Abrupt (err n)) ->
  forall k i lastError log,
    i + k = R ->
    retryLoop net request R (S k) i lastError log
    = (log ++ failedAttempts request i k ++ [Fetch request],
       Abrupt (err (fetchCount log + k))).
Proof.
  intros Hnet. induction k as [|k IH]; intros i lastError log Hi;
    rewrite retryLoop_step, Hnet.
  - assert (Nat.ltb i R = false) as -> by (apply Nat.ltb_ge; lia).
    rewrite retryLoop_done. now rewrite Nat.add_0_r.
  - assert (Nat.ltb i R = true) as -> by (apply Nat.ltb_lt; lia).
    rewrite (IH (S i)) by lia.
    rewrite fetchCount_attempt. cbn [failedAttempts].
    rewrite <- !app_assoc. cbn [app].
    now replace (S (fetchCount log) + k) with (fetchCount log + S k) by lia.
Qed.

(** The first attempt that obtains a response ends the loop. *)
Lemma retryLoop_first_response (net : Network) (request : UpstreamRequest)
      (r : Response) (R : nat) :
  forall j k i lastError log,
    i + k = R ->
    j <= k ->
    (forall m, m < j ->
       exists e, net (fetchCount log + m) request = Abrupt e) ->
    net (fetchCount log + j) request = Normal r ->
    retryLoop net request R (S k) i lastError log
    = (log ++ failedAttempts request i j ++ [Fetch request], Normal r).
Proof.
  induction j as [|j IH]; intros k i lastError log Hi Hj Hfail Hok;
    rewrite retryLoop_step.
  - rewrite Nat.add_0_r in Hok. now rewrite Hok.
  - destruct k as [|k]; [lia|].
    destruct (Hfail 0) as [e He]; [lia|].
    rewrite Nat.add_0_r in He. rewrite He.
    assert (Nat.ltb i R = true) as -> by (apply Nat.ltb_lt; lia).
    rewrite (IH k (S i) e); try lia.
    + cbn [failedAttempts]. rewrite <- !app_assoc. reflexivity.
    + intros m Hm. rewrite fetchCount_attempt.
      destruct (Hfail (S m)) as [e' He']; [lia|].
      exists e'. rewrite <- He'. f_equal. lia.
    + rewrite fetchCount_attempt. rewrite <- Hok. f_equal. lia.
Qed.

(** Whatever the upstream does, the loop appends to the log, and a loop
    with an attempt left fetches at least once. *)
Lemma retryLoop_log (net : Network) (request : UpstreamRequest) (R : nat) :
  forall k i lastError log,
    exists extra,
      fst (retryLoop net request R k i lastError log) = log ++ extra
      /\ (0 < k -> 0 < fetchCount extra).
Proof.
  induction k as [|k IH]; intros i lastError log.
  - exists []. cbn. rewrite app_nil_r. split; [reflexivity | lia].
  - rewrite retryLoop_step.
    destruct (net (fetchCount log) request) as [r|e].
    + exists [Fetch request]. split; [reflexivity | intros _; cbv; lia].
    + destruct (Nat.ltb i R).
      * destruct (IH (S i) e
                     (log ++ [Fetch request;
                              Sleep (2 ^ N.of_nat i * 1000)%N]))
          as [extra [E _]].
        exists (Fetch request :: Sleep (2 ^ N.of_nat i * 1000)%N :: extra).
        split.
        -- rewrite E. now rewrite <- !app_assoc.
        -- intros _. change (0 < S (fetchCount extra)). lia.
      * destruct (IH (S i) e (log ++ [Fetch request])) as [extra [E _]].
        exists (Fetch request :: extra). split.
        -- rewrite E. now rewrite <- app_assoc.
        -- intros _. change (0 < S (fetchCount extra)). lia.
Qed.

Lemma fetchWithRetry_fetches (net : Network) (request : UpstreamRequest)
      (R : nat) (log log' : Log) (res : Completion Response) :
  fetchWithRetry net request R log = (log', res) ->
  fetchCount log < fetchCount log'.
Proof.
  unfold fetchWithRetry. intros H.
  destruct (retryLoop_log net request R (S R) 0 Undefined log)
    as [extra [E F]].
  rewrite H in E. cbn in E. subst log'.
  rewrite fetchCount_app. specialize (F (Nat.lt_0_succ R)). lia.
Qed.

(** ** The file name *)

Lemma startsWith_app (p x : jsstring) : startsWith p (p ++ x) = true.
Proof.
  induction p as [|c p IH]; simpl; [reflexivity|].
  now rewrite N.eqb_refl, IH.
Qed.

Lemma startsWith_nonempty (p s : jsstring) :
  p <> [] -> startsWith p s = true -> s <> [].
Proof. destruct p, s; simpl; congruence. Qed.

Lemma lacksExtension_false (s : jsstring) :
  lacksExtension (Some s) = false -> includes 46 s = true.
Proof.
  unfold lacksExtension. intros H. apply orb_false_elim in H.
  destruct H as [_ H]. now apply negb_false_iff in H.
Qed.

(** The two ways a file name comes out: a candidate with a dot, or a
    generated name. *)
Lemma extractFilename_cases (rt : Runtime) (url : jsstring) :
  includes 46 (extractFilename rt url) = true
  \/ startsWith (js "download_") (extractFilename rt url) = true.
Proof.
  unfold extractFilename, extractFilename_try.
  destruct (parseURL rt url) as [urlObj|]; [|right; apply startsWith_app].
  cbv zeta.
  match goal with
  | |- context [match ?c with Some _ => _ | None => Some ?n end] =>
      destruct c as [s|]
  end; [|right; apply startsWith_app].
  destruct (truthy (Some s)).
  - destruct (decodeURIComponent (replaceClass invalidFilenameChar s))
      as [d|]; cbn [option_map]; [|right; apply startsWith_app].
    destruct (lacksExtension (Some d)) eqn:L;
      [right; apply startsWith_app | left; now apply lacksExtension_false].
  - destruct (lacksExtension (Some s)) eqn:L;
      [right; apply startsWith_app | left; now apply lacksExtension_false].
Qed.

Lemma extractFilename_nonempty (rt : Runtime) (url : jsstring) :
  extractFilename rt url <> [].
Proof.
  destruct (extractFilename_cases rt url) as [H|H].
  - now apply includes_nonempty with (c := 46%N).
  - apply startsWith_nonempty with (p := js "download_"); [|exact H].
    discriminate.
Qed.

(** ** Running [proxyDownload] and [handleRequest] *)

Lemma ok_covers_206 (r : Response) :
  negb (ok r) && negb (N.eqb (status r) 206) = negb (ok r).
Proof.
  destruct (N.eqb (status r) 206) eqn:E; [|apply andb_true_r].
  apply N.eqb_eq in E. unfold ok. rewrite E. reflexivity.
Qed.

(** [response.ok] is the status range 200-299. *)
Lemma ok_iff_2xx (r : Response) :
  ok r = true <-> (200 <= status r <= 299)%N.
Proof.
  unfold ok, inRange. rewrite andb_true_iff, !N.leb_le. tauto.
Qed.

(** [proxyDownload], one outcome per way through it. *)
Lemma proxyDownload_run (rt : Runtime) (net : Network)
      (request : IncomingRequest) (target : jsstring) (log : Log) :
  proxyDownload rt net request target log
  = if requestAccepted rt (upstreamRequestFor request target)
    then
      match fetchWithRetry net (upstreamRequestFor request target) 3 log with
      | (log', Abrupt e) => (log', Abrupt e)
      | (log', Normal response) =>
          if ok response
          then
            let filename := extractFilename rt target in
            match encodeURIComponent filename with
            | None =>
                (log', Abrupt (ErrorObject (faultMessage rt MalformedURI)))
            | Some encoded =>
                if legalHeaderValue rt (contentDisposition filename encoded)
                then
                  (log',
                   Normal
                     (if jseqb (in_method request) (js "OPTIONS")
                      then newResponse
                             rt None 200 None
                             (normalizedHeaders response filename encoded)
                      else newResponse
                             rt (body response) (status response)
                             (Some (statusText response))
                             (normalizedHeaders response filename encoded)))
                else
                  (log',
                   Abrupt (ErrorObject (faultMessage rt InvalidHeaderValue)))
            end
          else (log', Abrupt (upstreamError response))
      end
    else (log, Abrupt (ErrorObject (faultMessage rt InvalidRequest))).
Proof.
  unfold proxyDownload, newRequest, bind at 1.
  destruct (requestAccepted rt (upstreamRequestFor request target));
    [|reflexivity].
  unfold ret at 1, bind at 1.
  destruct (fetchWithRetry net (upstreamRequestFor request target) 3 log)
    as [log' [response|e]]; [|reflexivity].
  rewrite ok_covers_206.
  destruct (ok response); [|reflexivity].
  cbn [negb]. cbv zeta. unfold withContentDisposition.
  assert (truthy (Some (extractFilename rt target)) = true) as ->
    by (apply truthy_nonempty, extractFilename_nonempty).
  unfold bind, orThrow, setChecked, hostError.
  destruct (encodeURIComponent (extractFilename rt target)) as [encoded|];
    [|reflexivity].
  unfold ret at 1.
  destruct (legalHeaderValue rt
              (contentDisposition (extractFilename rt target) encoded));
    [|reflexivity].
  unfold ret at 1, normalizedHeaders.
  now destruct (jseqb (in_method request) (js "OPTIONS")).
Qed.

(** A request that passes the checks is handed to [proxyDownload]. *)
Lemma handleRequest_proxied (rt : Runtime) (net : Network) (page : jsstring)
      (request : IncomingRequest) (target : jsstring) :
  proxiedTo request target ->
  handleRequest rt net page request
  = tryCatch (proxyDownload rt net request target) (onProxyError rt).
Proof.
  intros (Hroot & Hdec & Hscheme). unfold handleRequest.
  apply jseqb_neq in Hroot. rewrite Hroot. cbv zeta.
  destruct (slice1 (in_pathname request)) as [|c rest] eqn:S.
  - cbn in Hdec. injection Hdec as <-. discriminate Hscheme.
  - cbn [truthy negb]. rewrite Hdec.
    rewrite <- negb_orb, Hscheme. reflexivity.
Qed.

(** ** The retry engine (claims C3 and C4) *)

(** C3. When every attempt fails at transport level, [fetchWithRetry] with
    [maxRetries = R] makes exactly [R + 1] fetch attempts, sleeps [2^i]
    seconds after failed attempt [i] for [i = 0 .. R-1] and not after the
    last one, and throws the error of the last attempt.  [handleRequest]
    (which asks for 3 retries) answers a proxied request with HTTP 500, and
    with the message of the fourth attempt once the upstream request was
    built. *)
Theorem retry_exhaustion
        (rt : Runtime) (net : Network) (page : jsstring)
        (msg : nat -> jsstring) :
  (forall n r, net n r = Abrupt (ErrorObject (msg n))) ->
  (forall upstream R log,
      fetchWithRetry net upstream R log
      = (log ++ failedAttempts upstream 0 R ++ [Fetch upstream],
         Abrupt (ErrorObject (msg (fetchCount log + R))))
      /\ fetchCount (failedAttempts upstream 0 R ++ [Fetch upstream]) = R + 1
      /\ sleeps (failedAttempts upstream 0 R ++ [Fetch upstream]) = backoff R)
  /\ (forall request target,
         proxiedTo request target ->
         requestAccepted rt (upstreamRequestFor request target) = true ->
         handleRequest rt net page request []
         = (failedAttempts (upstreamRequestFor request target) 0 3
            ++ [Fetch (upstreamRequestFor request target)],
            Normal (textResponse rt (js "Proxy error: " ++ msg 3) 500)))
  /\ (forall request target log,
         proxiedTo request target ->
         exists log' out,
           handleRequest rt net page request log = (log', Normal out)
           /\ status out = 500%N).
Proof.
  intros Hnet.
  assert (forall u R' log',
             fetchWithRetry net u R' log'
             = (log' ++ failedAttempts u 0 R' ++ [Fetch u],
                Abrupt (ErrorObject (msg (fetchCount log' + R'))))) as Hloop.
  { intros u R' log'. unfold fetchWithRetry.
    apply (retryLoop_all_fail net u (fun n => ErrorObject (msg n)) R');
      [intros n; apply Hnet | reflexivity]. }
  split; [|split].
  - intros upstream R log.
    split; [apply Hloop|].
    split; [rewrite fetchCount_app, fetchCount_failedAttempts; reflexivity|].
    rewrite sleeps_app, sleeps_failedAttempts, app_nil_r; reflexivity.
  - intros request target Hvalid Haccept.
    rewrite (handleRequest_proxied rt net page request target Hvalid).
    unfold tryCatch. rewrite proxyDownload_run, Haccept, Hloop.
    reflexivity.
  - intros request target log Hvalid.
    rewrite (handleRequest_proxied rt net page request target Hvalid).
    unfold tryCatch. rewrite proxyDownload_run, Hloop.
    destruct (requestAccepted rt (upstreamRequestFor request target));
      eexists; eexists; (split; [reflexivity|]); reflexivity.
Qed.

Lemma retry_exhaustion_witness :
  exists log out,
    handleRequest (referenceRuntime 0) unreachable []
                  (exampleRequest "GET" zipPath) []
    = (log, Normal out)
    /\ fetchCount log = 4
    /\ sleeps log = [1000; 2000; 4000]%N
    /\ status out = 500%N
    /\ body out
       = Some (BodyText (js "Proxy error: connection refused, attempt 3")).
Proof.
  destruct (retry_exhaustion (referenceRuntime 0) unreachable []
              (fun n => js "connection refused, attempt "
                        ++ decimal (N.of_nat n)))
    as (_ & Hhandler & _).
  - intros n r. reflexivity.
  - eexists. eexists. split.
    + apply (Hhandler (exampleRequest "GET" zipPath) zipURL);
        [|reflexivity].
      split; [intros E; vm_compute in E; discriminate E | split; reflexivity].
    + repeat split.
Defined.

(** C4. [fetchWithRetry] returns the first response obtained at transport
    level, whatever its status: if attempts [0 .. i-1] throw and attempt [i]
    answers with [r], then [r] is returned after exactly [i + 1] fetches and
    the [i] sleeps between them, and nothing follows. *)
Theorem first_response_returned
        (net : Network) (request : UpstreamRequest) (R : nat) (log : Log)
        (i : nat) (r : Response) :
  i <= R ->
  (forall j, j < i ->
     exists e, net (fetchCount log + j) request = Abrupt e) ->
  net (fetchCount log + i) request = Normal r ->
  fetchWithRetry net request R log
  = (log ++ failedAttempts request 0 i ++ [Fetch request], Normal r)
  /\ fetchCount (failedAttempts request 0 i ++ [Fetch request]) = i + 1
  /\ sleeps (failedAttempts request 0 i ++ [Fetch request]) = backoff i.
Proof.
  intros Hi Hfail Hok.
  split; [|split].
  - unfold fetchWithRetry.
    now apply (retryLoop_first_response net request r R i R 0 Undefined log).
  - rewrite fetchCount_app, fetchCount_failedAttempts. reflexivity.
  - rewrite sleeps_app, sleeps_failedAttempts, app_nil_r. reflexivity.
Qed.

Lemma first_response_returned_witness :
  fetchWithRetry (flaky 2 (exampleResponse 404 "Not Found")) zipUpstream 3 []
  = ([Fetch zipUpstream; Sleep 1000; Fetch zipUpstream; Sleep 2000;
      Fetch zipUpstream],
     Normal (exampleResponse 404 "Not Found")).
Proof.
  destruct (first_response_returned
              (flaky 2 (exampleResponse 404 "Not Found")) zipUpstream 3 [] 2
              (exampleResponse 404 "Not Found")) as (H & _ & _).
  - lia.
  - intros j Hj.
    exists (ErrorObject (js "connection refused, attempt "
                         ++ decimal (N.of_nat j))).
    destruct j as [|[|j]]; [reflexivity | reflexivity | lia].
  - reflexivity.
  - exact H.
Defined.

(** ** Headers sent upstream (claim C8) *)


(** ** Headers of the response (claims C9 and C10) *)


Lemma get_setAll_other (entries : list (jsstring * jsstring)) :
  forall (h : Headers.t) (n : jsstring),
    forallb (fun e => negb (Headers.sameName n (fst e))) entries = true ->
    Headers.get (setAll h entries) n = Headers.get h n.
Proof.
  unfold setAll.
  induction entries as [|e entries IH]; intros h n H; cbn [fold_left].
  - reflexivity.
  - cbn [forallb] in H. apply andb_true_iff in H. destruct H as [H1 H2].
    rewrite (IH _ n H2). apply HeadersFacts.get_set_other.
    now apply negb_true_iff.
Qed.





(** What it takes for [proxyDownload] to return a response. *)
Lemma proxyDownload_returns (rt : Runtime) (net : Network)
      (request : IncomingRequest) (target : jsstring)
      (log log' : Log) (out : Response) :
  proxyDownload rt net request target log = (log', Normal out) ->
  exists response encoded,
    fetchWithRetry net (upstreamRequestFor request target) 3 log
    = (log', Normal response)
    /\ ok response = true
    /\ encodeURIComponent (extractFilename rt target) = Some encoded
    /\ headers out
       = normalizedHeaders response (extractFilename rt target) encoded.
Proof.
  rewrite proxyDownload_run.
  destruct (requestAccepted rt (upstreamRequestFor request target));
    [|discriminate].
  destruct (fetchWithRetry net (upstreamRequestFor request target) 3 log)
    as [log1 [response|e]]; [|discriminate].
  destruct (ok response) eqn:Hok; [|discriminate].
  cbv zeta.
  destruct (encodeURIComponent (extractFilename rt target))
    as [encoded|] eqn:Henc; [|discriminate].
  destruct (legalHeaderValue rt _); [|discriminate].
  intros H. injection H as <- <-.
  exists response, encoded.
  repeat split; try assumption.
  now destruct (jseqb (in_method request) (js "OPTIONS")).
Qed.




(** C10. [extractFilename] always returns a non-empty string: a candidate
    holding a dot, or a generated name that starts with [download_].  So the
    guard of line 110 is always passed, and every response [proxyDownload]
    builds has the [Content-Disposition] header of line 111 for that
    name. *)
Theorem content_disposition_always_set
        (rt : Runtime) (net : Network) (request : IncomingRequest)
        (target : jsstring) (log log' : Log) (out : Response) :
  (extractFilename rt target <> []
   /\ truthy (Some (extractFilename rt target)) = true
   /\ (includes 46 (extractFilename rt target) = true
       \/ startsWith (js "download_") (extractFilename rt target) = true))
  /\ (proxyDownload rt net request target log = (log', Normal out) ->
      exists encoded,
        encodeURIComponent (extractFilename rt target) = Some encoded
        /\ Headers.get (headers out) (js "Content-Disposition")
           = Some (contentDisposition (extractFilename rt target) encoded)).
Proof.
  split.
  - split; [apply extractFilename_nonempty|].
    split; [apply truthy_nonempty, extractFilename_nonempty|].
    apply extractFilename_cases.
  - intros Hout.
    destruct (proxyDownload_returns rt net request target log log' out Hout)
      as (response & encoded & _ & _ & Henc & Hheaders).
    exists encoded. split; [exact Henc|].
    rewrite Hheaders. unfold normalizedHeaders.
    rewrite get_setAll_other by reflexivity.
    apply HeadersFacts.get_set_same, HeadersFacts.sameName_refl.
Qed.

Lemma content_disposition_always_set_witness :
  extractFilename (referenceRuntime 0) (js "https://a.com/a%20b.txt")
  = js "a b.txt"
  /\ exists log out,
       proxyDownload (referenceRuntime 0)
                     (answering (exampleResponse 200 "OK"))
                     (exampleRequest "GET" "/https%3A%2F%2Fa.com%2Fa%2520b.txt")
                     (js "https://a.com/a%20b.txt") []
       = (log, Normal out)
       /\ Headers.get (headers out) (js "Content-Disposition")
          = Some (js "attachment; filename=" ++ [34%N] ++ js "a b.txt"
                  ++ [34%N] ++ js "; filename*=UTF-8''a%20b.txt").
Proof.
  split; [reflexivity|].
  eexists. eexists. split; [vm_compute; reflexivity|].
  edestruct (content_disposition_always_set
               (referenceRuntime 0) (answering (exampleResponse 200 "OK"))
               (exampleRequest "GET" "/https%3A%2F%2Fa.com%2Fa%2520b.txt")
               (js "https://a.com/a%20b.txt") []) as [_ H].
  edestruct H as (encoded & Henc & Hget); [vm_compute; reflexivity|].
  rewrite Hget. vm_compute in Henc. injection Henc as <-. reflexivity.
Defined.

(** ** The file name on examples (claims C6 and C7) *)

Lemma scanParams_find (params : list (jsstring * jsstring))
      (filename : option jsstring) (names : list jsstring) :
  scanParams params names filename
  = match find (includes 46)
               (flat_map (fun name => match searchParams_get params name with
                                      | Some v => [v]
                                      | None => []
                                      end) names) with
    | Some v => Some v
    | None => filename
    end.
Proof.
  induction names as [|name names IH]; cbn [scanParams flat_map];
    [reflexivity|].
  destruct (searchParams_get params name) as [v|]; cbn [app find];
    [|exact IH].
  destruct (includes 46 v) eqn:E.
  - now rewrite (proj2 (truthy_nonempty v) (includes_nonempty 46 v E)).
  - now rewrite andb_false_r.
Qed.

(** C7. On the examples: [report.pdf] for [https://a.com/path/report.pdf];
    [movie.mp4] for [https://a.com/download?filename=movie.mp4];
    [download_a.com_T] for [https://a.com/] at time [T].  The query
    parameters [filename], [file], [name] and [download] are scanned in
    that order, whatever their order in the query, and the first value that
    holds a dot wins; a value without a dot and a parameter of another name
    are passed over.  The file name depends on nothing but the parse of the
    URL and the clock. *)
Theorem extractFilename_examples :
  (forall T, extractFilename (referenceRuntime T)
                             (js "https://a.com/path/report.pdf")
             = js "report.pdf")
  /\ (forall T, extractFilename (referenceRuntime T)
                                (js "https://a.com/download?filename=movie.mp4")
                = js "movie.mp4")
  /\ (forall T, extractFilename (referenceRuntime T) (js "https://a.com/")
                = js "download_a.com_" ++ decimal T)
  /\ (forall params filename,
         let pick name otherwise :=
           match searchParams_get params name with
           | Some v => if includes 46 v then Some v else otherwise
           | None => otherwise
           end in
         scanParams params filenameParams filename
         = pick (js "filename")
                (pick (js "file")
                      (pick (js "name") (pick (js "download") filename))))
  /\ (forall T,
         extractFilename
           (referenceRuntime T)
           (js "https://a.com/get?download=d.bin&name=n.bin&file=f.bin&filename=m.mp4")
         = js "m.mp4"
         /\ extractFilename
              (referenceRuntime T)
              (js "https://a.com/get?download=d.bin&name=n.bin&file=f.bin")
            = js "f.bin"
         /\ extractFilename
              (referenceRuntime T)
              (js "https://a.com/get?download=d.bin&name=n.bin")
            = js "n.bin"
         /\ extractFilename (referenceRuntime T)
                            (js "https://a.com/get?download=d.bin")
            = js "d.bin"
         /\ extractFilename (referenceRuntime T)
                            (js "https://a.com/get?filename=noext&file=b.iso")
            = js "b.iso"
         /\ extractFilename (referenceRuntime T)
                            (js "https://a.com/get?attachment=a.bin")
            = js "download_a.com_" ++ decimal T)
  /\ (forall rt rt' url,
         parseURL rt url = parseURL rt' url ->
         dateNow rt = dateNow rt' ->
         extractFilename rt url = extractFilename rt' url).
Proof.
  split; [intros T; reflexivity|].
  split; [intros T; reflexivity|].
  split; [intros T; reflexivity|].
  split.
  { intros params filename pick. unfold pick.
    cbn [scanParams filenameParams].
    repeat match goal with
           | |- context [searchParams_get params ?name] =>
               destruct (searchParams_get params name) as [?v|]
           end;
      repeat match goal with
             | |- context [includes 46 ?v] =>
                 let E := fresh "E" in
                 destruct (includes 46 v) eqn:E;
                 [rewrite (proj2 (truthy_nonempty v)
                                 (includes_nonempty 46 v E)); cbn [andb]
                 |rewrite ?andb_false_r]
             end;
      reflexivity. }
  split; [intros T; repeat split; reflexivity|].
  intros rt rt' url Hparse Hnow.
  unfold extractFilename, extractFilename_try.
  now rewrite Hparse, Hnow.
Qed.

Lemma extractFilename_examples_witness :
  extractFilename
    {| parseURL := plainURL;
       dateNow := 1700000000000;
       legalHeaderValue := fun _ => true;
       requestAccepted := fun _ => true;
       faultMessage := fun _ => [];
       defaultStatusText := fun _ => [] |}
    (js "https://a.com/download?name=x.bin&filename=movie.mp4")
  = js "movie.mp4".
Proof.
  transitivity
    (extractFilename
       (referenceRuntime 1700000000000)
       (js "https://a.com/download?name=x.bin&filename=movie.mp4")).
  - apply (proj2 (proj2 (proj2 (proj2 (proj2 extractFilename_examples)))));
      reflexivity.
  - reflexivity.
Defined.

(** Line 188 does what it says: what it returns holds none of the
    forbidden characters. *)
Lemma replaceClass_clean (s : jsstring) :
  existsb invalidFilenameChar (replaceClass invalidFilenameChar s) = false.
Proof.
  induction s as [|c s IH]; [reflexivity|].
  cbn [replaceClass map existsb]. fold (replaceClass invalidFilenameChar s).
  rewrite IH, orb_false_r.
  destruct (invalidFilenameChar c) eqn:E; [reflexivity | exact E].
Qed.

(** C6 fails on this URL: the escape [%2F] passes the replacement of line
    188 untouched and line 190 decodes it, so the name returned holds a
    slash. *)
Theorem extractFilename_returns_slash :
  forall T,
    extractFilename (referenceRuntime T) (js "https://a.com/a%2Fb.txt")
    = js "a/b.txt"
    /\ existsb invalidFilenameChar
               (extractFilename (referenceRuntime T)
                                (js "https://a.com/a%2Fb.txt")) = true.
Proof. intros T. split; reflexivity. Qed.

(** ** Validation (claim C5) *)

(** The root path has an empty target and is answered with the page, not
    with a 400. *)
Lemma root_path_serves_page :
  slice1 (in_pathname (exampleRequest "GET" "/")) = []
  /\ exists out,
       handleRequest (referenceRuntime 0) unreachable (js "<!DOCTYPE html>")
                     (exampleRequest "GET" "/") []
       = ([], Normal out)
       /\ out = {| status := 200; statusText := js "OK";
                   headers := [(js "Content-Type", js "text/html")];
                   body := Some (BodyText (js "<!DOCTYPE html>")) |}
       /\ status out <> 400%N.
Proof.
  split; [reflexivity|]. eexists. split; [reflexivity|].
  split; [reflexivity | discriminate].
Qed.

(** C5, as the code has it.  For every request whose path is not the root
    path: an empty target, a target that fails percent-decoding and a
    decoded target that starts with neither [http://] nor [https://] are
    each answered with HTTP 400 and their plain-text message, and the log
    is left as it was: no fetch is attempted. *)
Theorem invalid_target_rejected
        (rt : Runtime) (net : Network) (page : jsstring)
        (request : IncomingRequest) (log : Log) :
  in_pathname request <> js "/" ->
  (slice1 (in_pathname request) = [] ->
   handleRequest rt net page request log
   = (log, Normal (textResponse rt (js "No URL provided") 400)))
  /\ (slice1 (in_pathname request) <> [] ->
      decodeURIComponent (slice1 (in_pathname request)) = None ->
      handleRequest rt net page request log
      = (log, Normal (textResponse rt (js "Invalid URL encoding") 400)))
  /\ (forall decoded,
         slice1 (in_pathname request) <> [] ->
         decodeURIComponent (slice1 (in_pathname request)) = Some decoded ->
         startsWith (js "http://") decoded = false ->
         startsWith (js "https://") decoded = false ->
         handleRequest rt net page request log
         = (log,
            Normal (textResponse rt
                      (js "Invalid URL - must start with http:// or https://")
                      400))).
Proof.
  intros Hroot. apply jseqb_neq in Hroot.
  unfold handleRequest. rewrite Hroot. cbv zeta.
  split; [|split].
  - intros ->. reflexivity.
  - intros Hne Hdec. apply truthy_nonempty in Hne.
    now rewrite Hne, Hdec.
  - intros decoded Hne Hdec Hhttp Hhttps. apply truthy_nonempty in Hne.
    now rewrite Hne, Hdec, Hhttp, Hhttps.
Qed.

Lemma invalid_target_rejected_witness :
  handleRequest (referenceRuntime 0) (answering (exampleResponse 200 "OK"))
                [] (exampleRequest "GET" "") []
  = ([], Normal (textResponse (referenceRuntime 0) (js "No URL provided")
                              400))
  /\ handleRequest (referenceRuntime 0) (answering (exampleResponse 200 "OK"))
                   [] (exampleRequest "GET" "/%E0%A4%A") []
     = ([], Normal (textResponse (referenceRuntime 0)
                                 (js "Invalid URL encoding") 400))
  /\ handleRequest (referenceRuntime 0) (answering (exampleResponse 200 "OK"))
                   [] (exampleRequest "GET" "/ftp%3A%2F%2Fhost%2Ffile") []
     = ([], Normal (textResponse (referenceRuntime 0)
                      (js "Invalid URL - must start with http:// or https://")
                      400)).
Proof.
  split; [|split].
  - apply (invalid_target_rejected
             (referenceRuntime 0) (answering (exampleResponse 200 "OK")) []
             (exampleRequest "GET" "") []).
    + intros E; vm_compute in E; discriminate E.
    + reflexivity.
  - apply (invalid_target_rejected
             (referenceRuntime 0) (answering (exampleResponse 200 "OK")) []
             (exampleRequest "GET" "/%E0%A4%A") []).
    + intros E; vm_compute in E; discriminate E.
    + intros E; vm_compute in E; discriminate E.
    + reflexivity.
  - apply (invalid_target_rejected
             (referenceRuntime 0) (answering (exampleResponse 200 "OK")) []
             (exampleRequest "GET" "/ftp%3A%2F%2Fhost%2Ffile") []
             ltac:(intros E; vm_compute in E; discriminate E))
      with (decoded := js "ftp://host/file").
    + intros E; vm_compute in E; discriminate E.
    + reflexivity.
    + reflexivity.
    + reflexivity.
Defined.

(** ** What an [OPTIONS] request costs *)

Lemma get_cors (h : Headers.t) (e : jsstring * jsstring) :
  In e corsHeaders ->
  Headers.get (setAll h corsHeaders) (fst e) = Some (snd e).
Proof.
  unfold setAll. cbn [corsHeaders fold_left fst snd In].
  intros H.
  repeat (destruct H as [<-|H];
          [cbn [fst snd]; rewrite !HeadersFacts.get_set; reflexivity|]).
  contradiction.
Qed.

(** An [OPTIONS] request goes through the upstream fetch like any other:
    with a healthy upstream one fetch is made before the 200, and with an
    unreachable one the answer is a 500 after four. *)
Lemma options_request_is_fetched :
  (exists log out,
      handleRequest (referenceRuntime 0)
                    (answering (exampleResponse 200 "OK")) []
                    (exampleRequest "OPTIONS" zipPath) []
      = (log, Normal out)
      /\ status out = 200%N
      /\ fetchCount log = 1
      /\ fetchCount log <> 0)
  /\ (exists log out,
         handleRequest (referenceRuntime 0) unreachable []
                       (exampleRequest "OPTIONS" zipPath) []
         = (log, Normal out)
         /\ status out = 500%N
         /\ status out <> 200%N
         /\ fetchCount log = 4).
Proof.
  split; eexists; eexists; (split; [vm_compute; reflexivity|]);
    repeat split; discriminate.
Qed.

(** A file name that decodes to a line feed makes a header value the host
    refuses: an upstream 200 is then answered with a 500.  This is why the
    statements on relayed responses ask that the header can be built. *)
Lemma illegal_filename_breaks_relay :
  extractFilename (referenceRuntime 0) (js "https://a.com/a%0Ab.txt")
  = js "a" ++ [10%N] ++ js "b.txt"
  /\ handleRequest (referenceRuntime 0) (answering (exampleResponse 200 "OK"))
                   [] (exampleRequest "GET" "/https%3A%2F%2Fa.com%2Fa%250Ab.txt")
                   []
     = ([Fetch (upstreamRequestFor
                  (exampleRequest "GET" "/https%3A%2F%2Fa.com%2Fa%250Ab.txt")
                  (js "https://a.com/a%0Ab.txt"))],
        Normal (textResponse (referenceRuntime 0)
                             (js "Proxy error: Invalid header value.") 500)).
Proof. split; reflexivity. Qed.

(** ** The router always answers *)

Lemma retryLoop_throws_error (net : Network) (request : UpstreamRequest)
      (R : nat) :
  (forall n r, net n r <> Abrupt Undefined) ->
  forall k i lastError log log' e,
    (k = 0 -> lastError <> Undefined) ->
    retryLoop net request R k i lastError log = (log', Abrupt e) ->
    e <> Undefined.
Proof.
  intros Hnet. induction k as [|k IH]; intros i lastError log log' e Hlast.
  - rewrite retryLoop_done. intros H. injection H as _ <-. now apply Hlast.
  - rewrite retryLoop_step.
    destruct (net (fetchCount log) request) as [r|error] eqn:E;
      [discriminate|].
    assert (error <> Undefined) as Herror.
    { intros ->. exact (Hnet _ _ E). }
    destruct (Nat.ltb i R); apply IH; intros _; exact Herror.
Qed.

(** X7.  As long as the upstream fails with error objects, [handleRequest]
    returns a response on every request: no failure escapes the handler. *)
Lemma handleRequest_always_responds (rt : Runtime) (net : Network)
      (page : jsstring) (request : IncomingRequest) (log : Log) :
  (forall n r, net n r <> Abrupt Undefined) ->
  exists log' out,
    handleRequest rt net page request log = (log', Normal out).
Proof.
  intros Hnet. unfold handleRequest.
  destruct (jseqb (in_pathname request) (js "/")); [now eexists; eexists|].
  cbv zeta.
  destruct (negb (truthy (Some (slice1 (in_pathname request)))));
    [now eexists; eexists|].
  destruct (decodeURIComponent (slice1 (in_pathname request))) as [target|];
    [|now eexists; eexists].
  destruct (negb (startsWith (js "http://") target)
            && negb (startsWith (js "https://") target));
    [now eexists; eexists|].
  unfold tryCatch. rewrite proxyDownload_run.
  destruct (requestAccepted rt (upstreamRequestFor request target));
    [|now eexists; eexists].
  destruct (fetchWithRetry net (upstreamRequestFor request target) 3 log)
    as [log' [response|e]] eqn:Hfetch.
  - destruct (ok response); [|now eexists; eexists].
    cbv zeta.
    destruct (encodeURIComponent (extractFilename rt target)) as [encoded|];
      [|now eexists; eexists].
    destruct (legalHeaderValue rt _); now eexists; eexists.
  - destruct e as [message|]; [now eexists; eexists|].
    exfalso.
    apply (retryLoop_throws_error
             net (upstreamRequestFor request target) 3 Hnet
             4 0 Undefined log log' Undefined);
      [discriminate | exact Hfetch | reflexivity].
Qed.

(** * Further properties *)

(** ** Escaping and unescaping *)


Section RoundTrip.

#[local] Ltac Zify.zify_post_hook ::= Z.to_euclidean_division_equations.

Ltac cases_on_tests :=
  repeat match goal with
         | |- context [N.leb ?a ?b] => destruct (N.leb_spec a b)
         | |- context [N.ltb ?a ?b] => destruct (N.ltb_spec a b)
         | |- context [N.eqb ?a ?b] => destruct (N.eqb_spec a b)
         end;
  cbn [andb orb negb]; try lia; try reflexivity.

Lemma hexval_hexDigit (n : N) : (n < 16)%N -> hexval (hexDigit n) = Some n.
Proof.
  intros H. unfold hexDigit, hexval, isDigit, inRange.
  cases_on_tests; f_equal; lia.
Qed.

Lemma tokens_pct (b : N) (rest : jsstring) :
  (b < 256)%N ->
  tokens (pct b ++ rest) = option_map (cons (Esc b)) (tokens rest).
Proof.
  intros H. unfold pct. cbn [app tokens]. rewrite N.eqb_refl.
  rewrite !hexval_hexDigit by lia.
  replace (16 * (b / 16) + b mod 16)%N with b by lia. reflexivity.
Qed.


Lemma tokens_escapes (bytes : list N) (rest : jsstring) :
  Forall (fun b => (b < 256)%N) bytes ->
  tokens (flat_map pct bytes ++ rest)
  = option_map (app (map Esc bytes)) (tokens rest).
Proof.
  induction 1 as [|b bytes Hb _ IH]; cbn [flat_map map app].
  - now destruct (tokens rest).
  - rewrite <- app_assoc, tokens_pct by exact Hb. rewrite IH.
    now destruct (tokens rest).
Qed.

Lemma tokens_literal (c : N) (rest : jsstring) :
  c <> 37%N -> tokens (c :: rest) = option_map (cons (Lit c)) (tokens rest).
Proof.
  intros H. cbn [tokens]. apply N.eqb_neq in H. now rewrite H.
Qed.

Lemma utf8_bytes (cp : N) :
  (cp < 1114112)%N -> Forall (fun b => (b < 256)%N) (utf8 cp).
Proof.
  intros H. unfold utf8. cases_on_tests; repeat constructor; lia.
Qed.

(** Decoding the escapes of one scalar value gives back its code units. *)
Lemma assemble_utf8 (cp : N) (ts : list token) :
  scalar cp ->
  assemble (map Esc (utf8 cp) ++ ts)
  = option_map (app (utf16 cp)) (assemble ts).
Proof.
  intros [Hs Hmax]. unfold utf8.
  destruct (N.ltb_spec cp 128) as [H1|H1].
  - cbn [map app assemble].
    assert (N.ltb cp 128 = true) as -> by (apply N.ltb_lt; lia).
    unfold utf16.
    assert (N.ltb cp 65536 = true) as -> by (apply N.ltb_lt; lia).
    now destruct (assemble ts).
  - destruct (N.ltb_spec cp 2048) as [H2|H2].
    + cbn [map app assemble].
      assert (N.ltb (192 + cp / 64) 128 = false) as ->
          by (apply N.ltb_ge; lia).
      assert (inRange 194 223 (192 + cp / 64) = true) as ->
          by (unfold inRange; cases_on_tests).
      assert (cont (128 + cp mod 64) = true) as ->
          by (unfold cont, inRange; cases_on_tests).
      replace ((192 + cp / 64 - 192) * 64 + (128 + cp mod 64 - 128))%N
        with cp by lia.
      reflexivity.
    + destruct (N.ltb_spec cp 65536) as [H3|H3].
      * cbn [map app assemble].
        assert (N.ltb (224 + cp / 4096) 128 = false) as ->
            by (apply N.ltb_ge; lia).
        assert (inRange 194 223 (224 + cp / 4096) = false) as ->
            by (unfold inRange; cases_on_tests).
        assert (inRange 224 239 (224 + cp / 4096) = true) as ->
            by (unfold inRange; cases_on_tests).
        assert (second3 (224 + cp / 4096) (128 + (cp / 64) mod 64) = true)
          as -> by (unfold second3, cont, inRange; cases_on_tests).
        assert (cont (128 + cp mod 64) = true) as ->
            by (unfold cont, inRange; cases_on_tests).
        cbn [andb].
        replace ((224 + cp / 4096 - 224) * 4096
                 + (128 + (cp / 64) mod 64 - 128) * 64
                 + (128 + cp mod 64 - 128))%N with cp by lia.
        reflexivity.
      * cbn [map app assemble].
        assert (N.ltb (240 + cp / 262144) 128 = false) as ->
            by (apply N.ltb_ge; lia).
        assert (inRange 194 223 (240 + cp / 262144) = false) as ->
            by (unfold inRange; cases_on_tests).
        assert (inRange 224 239 (240 + cp / 262144) = false) as ->
            by (unfold inRange; cases_on_tests).
        assert (inRange 240 244 (240 + cp / 262144) = true) as ->
            by (unfold inRange; cases_on_tests).
        assert (second4 (240 + cp / 262144) (128 + (cp / 4096) mod 64)
                = true)
          as -> by (unfold second4, cont, inRange; cases_on_tests).
        assert (cont (128 + (cp / 64) mod 64) = true) as ->
            by (unfold cont, inRange; cases_on_tests).
        assert (cont (128 + cp mod 64) = true) as ->
            by (unfold cont, inRange; cases_on_tests).
        cbn [andb].
        replace ((240 + cp / 262144 - 240) * 262144
                 + (128 + (cp / 4096) mod 64 - 128) * 4096
                 + (128 + (cp / 64) mod 64 - 128) * 64
                 + (128 + cp mod 64 - 128))%N with cp by lia.
        reflexivity.
Qed.


Lemma utf16_bmp (cp : N) : (cp < 65536)%N -> utf16 cp = [cp].
Proof.
  intros H. unfold utf16. now rewrite (proj2 (N.ltb_lt cp 65536) H).
Qed.

Lemma utf16_pair (c c2 : N) :
  inRange 55296 56319 c = true ->
  inRange 56320 57343 c2 = true ->
  utf16 ((c - 55296) * 1024 + (c2 - 56320) + 65536) = [c; c2].
Proof.
  unfold inRange. intros H1 H2.
  apply andb_true_iff in H1, H2.
  destruct H1 as [H1 H1'], H2 as [H2 H2'].
  apply N.leb_le in H1, H1', H2, H2'.
  unfold utf16.
  assert (N.ltb ((c - 55296) * 1024 + (c2 - 56320) + 65536) 65536 = false)
    as -> by (apply N.ltb_ge; lia).
  f_equal; [|f_equal]; lia.
Qed.

Lemma decode_literal (c : N) (e s : jsstring) :
  c <> 37%N ->
  decodeURIComponent e = Some s ->
  decodeURIComponent (c :: e) = Some (c :: s).
Proof.
  unfold decodeURIComponent. intros Hc. rewrite tokens_literal by exact Hc.
  destruct (tokens e) as [ts|]; [|discriminate].
  cbn [option_map assemble]. now intros ->.
Qed.

Lemma decode_escaped (cp : N) (e s : jsstring) :
  scalar cp ->
  decodeURIComponent e = Some s ->
  decodeURIComponent (flat_map pct (utf8 cp) ++ e) = Some (utf16 cp ++ s).
Proof.
  unfold decodeURIComponent. intros Hcp.
  rewrite tokens_escapes by (apply utf8_bytes, Hcp).
  destruct (tokens e) as [ts|]; [|discriminate].
  cbn [option_map]. rewrite assemble_utf8 by exact Hcp. now intros ->.
Qed.

Lemma unreserved_not_percent (c : N) : unreserved c = true -> c <> 37%N.
Proof. intros H ->. discriminate H. Qed.

Lemma encode_decode_bounded (n : nat) :
  forall s e,
    List.length s <= n ->
    codeUnits s ->
    encodeURIComponent s = Some e ->
    decodeURIComponent e = Some s.
Proof.
  induction n as [|n IH]; intros s e Hlen Hs Henc.
  - destruct s; [|cbn in Hlen; lia]. cbn in Henc. now injection Henc as <-.
  - destruct s as [|c rest]; [cbn in Henc; now injection Henc as <-|].
    cbn [List.length] in Hlen. inversion Hs as [|? ? Hc Hrest]; subst.
    cbn [encodeURIComponent] in Henc.
    destruct (unreserved c) eqn:Hu.
    { destruct (encodeURIComponent rest) as [e'|] eqn:E; [|discriminate].
      injection Henc as <-.
      apply decode_literal; [now apply unreserved_not_percent|].
      apply IH; [lia | exact Hrest | exact E]. }
    destruct (inRange 56320 57343 c) eqn:Hlow; [discriminate|].
    destruct (inRange 55296 56319 c) eqn:Hhigh.
    { destruct rest as [|c2 rest']; [discriminate|].
      destruct (inRange 56320 57343 c2) eqn:Hlow2; [|discriminate].
      destruct (encodeURIComponent rest') as [e'|] eqn:E; [|discriminate].
      injection Henc as <-.
      inversion Hrest as [|? ? _ Hrest']; subst.
      change (c :: c2 :: rest') with ([c; c2] ++ rest').
      rewrite <- (utf16_pair c c2 Hhigh Hlow2).
      apply decode_escaped.
      - unfold inRange in Hhigh, Hlow2.
        apply andb_true_iff in Hhigh, Hlow2.
        destruct Hhigh as [A B], Hlow2 as [C D].
        apply N.leb_le in A, B, C, D. unfold scalar. lia.
      - apply IH; [cbn [List.length] in Hlen; lia | exact Hrest' | exact E]. }
    destruct (encodeURIComponent rest) as [e'|] eqn:E; [|discriminate].
    injection Henc as <-.
    change (c :: rest) with ([c] ++ rest). rewrite <- (utf16_bmp c Hc).
    apply decode_escaped.
    + unfold inRange in Hlow, Hhigh. unfold scalar.
      apply andb_false_iff in Hlow, Hhigh.
      rewrite !N.leb_gt in Hlow, Hhigh. lia.
    + apply IH; [lia | exact Hrest | exact E].
Qed.

End RoundTrip.

(** ** The link of the page and the worker *)

(** [encodeURIComponent] and [decodeURIComponent] are inverse on the
    strings the first accepts. *)
Lemma encode_decode (s e : jsstring) :
  codeUnits s ->
  encodeURIComponent s = Some e ->
  decodeURIComponent e = Some s.
Proof. apply (encode_decode_bounded (List.length s)). apply Nat.le_refl. Qed.

(** X1.  The link shown by the page makes the worker proxy exactly the URL that
    was typed: for a URL that starts with [http://] or [https://], a request
    whose path is the part of the link after the origin is handed to
    [proxyDownload] with that URL as target. *)
Theorem page_link_is_proxied
        (rt : Runtime) (net : Network) (page : jsstring)
        (baseUrl downloadUrl proxyUrl : jsstring)
        (request : IncomingRequest) :
  codeUnits downloadUrl ->
  startsWith (js "http://") downloadUrl
  || startsWith (js "https://") downloadUrl = true ->
  proxyFormSubmit baseUrl downloadUrl = Some proxyUrl ->
  proxyUrl = baseUrl ++ in_pathname request ->
  decodeURIComponent (slice1 (in_pathname request)) = Some downloadUrl
  /\ handleRequest rt net page request
     = tryCatch (proxyDownload rt net request downloadUrl) (onProxyError rt).
Proof.
  intros Hunits Hscheme Hlink Hpath. unfold proxyFormSubmit in Hlink.
  destruct (encodeURIComponent downloadUrl) as [encodedUrl|] eqn:Henc;
    [|discriminate].
  injection Hlink as <-. apply app_inv_head in Hpath.
  pose proof (encode_decode downloadUrl encodedUrl Hunits Henc) as Hdec.
  assert (decodeURIComponent (slice1 (in_pathname request))
          = Some downloadUrl) as Hslice.
  { rewrite <- Hpath. exact Hdec. }
  split; [exact Hslice|].
  apply handleRequest_proxied. split; [|split; assumption].
  intros Hroot. rewrite Hroot in Hslice. cbn in Hslice.
  injection Hslice as <-. discriminate Hscheme.
Qed.

Lemma page_link_is_proxied_witness :
  proxyFormSubmit (js "https://w.example.workers.dev")
                  (js "https://a.com/dir/f.zip?token=a b&n=1#top")
  = Some (js "https://w.example.workers.dev"
          ++ js "/https%3A%2F%2Fa.com%2Fdir%2Ff.zip%3Ftoken%3Da%20b%26n%3D1%23top")
  /\ handleRequest
       (referenceRuntime 0) unreachable []
       (exampleRequest
          "GET"
          "/https%3A%2F%2Fa.com%2Fdir%2Ff.zip%3Ftoken%3Da%20b%26n%3D1%23top")
     = tryCatch
         (proxyDownload
            (referenceRuntime 0) unreachable
            (exampleRequest
               "GET"
               "/https%3A%2F%2Fa.com%2Fdir%2Ff.zip%3Ftoken%3Da%20b%26n%3D1%23top")
            (js "https://a.com/dir/f.zip?token=a b&n=1#top"))
         (onProxyError (referenceRuntime 0)).
Proof.
  split; [reflexivity|].
  apply (page_link_is_proxied
           (referenceRuntime 0) unreachable []
           (js "https://w.example.workers.dev")
           (js "https://a.com/dir/f.zip?token=a b&n=1#top")
           (js "https://w.example.workers.dev"
            ++ js "/https%3A%2F%2Fa.com%2Fdir%2Ff.zip%3Ftoken%3Da%20b%26n%3D1%23top")).
  - repeat constructor.
  - reflexivity.
  - reflexivity.
  - reflexivity.
Defined.

Section LinkAlphabet.

#[local] Ltac Zify.zify_post_hook ::= Z.to_euclidean_division_equations.

Lemma hexDigit_unreserved (n : N) :
  (n < 16)%N -> unreserved (hexDigit n) = true.
Proof.
  intros H. unfold unreserved, isAlnum, isDigit, isUpper, hexDigit, inRange.
  destruct (N.ltb_spec n 10).
  - assert (N.leb 48 (48 + n) = true) as -> by (apply N.leb_le; lia).
    assert (N.leb (48 + n) 57 = true) as -> by (apply N.leb_le; lia).
    reflexivity.
  - assert (N.leb 65 (55 + n) = true) as -> by (apply N.leb_le; lia).
    assert (N.leb (55 + n) 90 = true) as -> by (apply N.leb_le; lia).
    cbn [andb]. now rewrite orb_true_r.
Qed.

Lemma pct_alphabet (b : N) :
  (b < 256)%N ->
  Forall (fun c => unreserved c = true \/ c = 37%N) (pct b).
Proof.
  intros H. unfold pct.
  apply Forall_cons; [now right|].
  apply Forall_cons; [left; apply hexDigit_unreserved; lia|].
  apply Forall_cons; [left; apply hexDigit_unreserved; lia|].
  apply Forall_nil.
Qed.

Lemma escapes_alphabet (bytes : list N) :
  Forall (fun b => (b < 256)%N) bytes ->
  Forall (fun c => unreserved c = true \/ c = 37%N) (flat_map pct bytes).
Proof.
  induction 1 as [|b bytes Hb _ IH]; cbn [flat_map]; [constructor|].
  apply Forall_app. split; [now apply pct_alphabet | exact IH].
Qed.

Lemma encode_alphabet_bounded (n : nat) :
  forall s e,
    List.length s <= n ->
    codeUnits s ->
    encodeURIComponent s = Some e ->
    Forall (fun c => unreserved c = true \/ c = 37%N) e.
Proof.
  induction n as [|n IH]; intros s e Hlen Hs Henc.
  - destruct s; [|cbn in Hlen; lia]. cbn in Henc.
    injection Henc as <-. constructor.
  - destruct s as [|c rest];
      [cbn in Henc; injection Henc as <-; constructor|].
    cbn [List.length] in Hlen. inversion Hs as [|? ? Hc Hrest]; subst.
    cbn [encodeURIComponent] in Henc.
    destruct (unreserved c) eqn:Hu.
    { destruct (encodeURIComponent rest) as [e'|] eqn:E; [|discriminate].
      injection Henc as <-. constructor; [now left|].
      apply (IH rest); [lia | exact Hrest | exact E]. }
    destruct (inRange 56320 57343 c) eqn:Hlow; [discriminate|].
    destruct (inRange 55296 56319 c) eqn:Hhigh.
    { destruct rest as [|c2 rest']; [discriminate|].
      destruct (inRange 56320 57343 c2) eqn:Hlow2; [|discriminate].
      destruct (encodeURIComponent rest') as [e'|] eqn:E; [|discriminate].
      injection Henc as <-.
      inversion Hrest as [|? ? _ Hrest']; subst.
      apply Forall_app. split.
      - apply escapes_alphabet, utf8_bytes.
        unfold inRange in Hhigh, Hlow2.
        apply andb_true_iff in Hhigh, Hlow2.
        destruct Hhigh as [A B], Hlow2 as [C D].
        apply N.leb_le in A, B, C, D. lia.
      - apply (IH rest');
          [cbn [List.length] in Hlen; lia | exact Hrest' | exact E]. }
    destruct (encodeURIComponent rest) as [e'|] eqn:E; [|discriminate].
    injection Henc as <-.
    apply Forall_app. split.
    + apply escapes_alphabet, utf8_bytes. lia.
    + apply (IH rest); [lia | exact Hrest | exact E].
Qed.

End LinkAlphabet.

Lemma alphabet_excludes (e : jsstring) (c : N) :
  Forall (fun x => unreserved x = true \/ x = 37%N) e ->
  unreserved c = false -> c <> 37%N ->
  includes c e = false.
Proof.
  intros He Hc Hp. unfold includes.
  induction He as [|x e Hx _ IH]; [reflexivity|].
  cbn [existsb]. rewrite IH, orb_false_r.
  apply N.eqb_neq. intros ->. destruct Hx as [Hx|Hx]; congruence.
Qed.

(** X2.  The link of the page is the origin, a slash, and a string made of
    letters, digits, [- _ . ! ~ * ' ( )] and [%] only: no slash, question
    mark or hash of the URL that was typed survives unescaped, so its path,
    query and fragment all travel in the path of the link. *)
Theorem page_link_alphabet (baseUrl downloadUrl proxyUrl : jsstring) :
  codeUnits downloadUrl ->
  proxyFormSubmit baseUrl downloadUrl = Some proxyUrl ->
  exists encodedUrl,
    proxyUrl = baseUrl ++ js "/" ++ encodedUrl
    /\ Forall (fun c => unreserved c = true \/ c = 37%N) encodedUrl
    /\ includes 47 encodedUrl = false
    /\ includes 63 encodedUrl = false
    /\ includes 35 encodedUrl = false.
Proof.
  intros Hunits Hlink. unfold proxyFormSubmit in Hlink.
  destruct (encodeURIComponent downloadUrl) as [encodedUrl|] eqn:Henc;
    [|discriminate].
  injection Hlink as <-. exists encodedUrl.
  pose proof (encode_alphabet_bounded (List.length downloadUrl) downloadUrl
                encodedUrl (Nat.le_refl _) Hunits Henc) as Ha.
  split; [reflexivity|]. split; [exact Ha|].
  repeat split; apply alphabet_excludes;
    solve [exact Ha | reflexivity | discriminate].
Qed.

Lemma page_link_alphabet_witness :
  exists encodedUrl,
    js "https://w.example.workers.dev/https%3A%2F%2Fa.com%2Ff.zip%3Fn%3D1%23top"
    = js "https://w.example.workers.dev" ++ js "/" ++ encodedUrl
    /\ includes 47 encodedUrl = false
    /\ includes 63 encodedUrl = false
    /\ includes 35 encodedUrl = false.
Proof.
  destruct (page_link_alphabet
              (js "https://w.example.workers.dev")
              (js "https://a.com/f.zip?n=1#top")
              (js "https://w.example.workers.dev/https%3A%2F%2Fa.com%2Ff.zip%3Fn%3D1%23top"))
    as (encodedUrl & E & _ & H1 & H2 & H3).
  - repeat constructor.
  - reflexivity.
  - exists encodedUrl. repeat split; assumption.
Defined.

(** ** The retry loop against any upstream *)

(** All the attempts that are left fail. *)
Lemma retryLoop_window_fail (net : Network) (request : UpstreamRequest)
      (R : nat) :
  forall k i lastError log,
    i + k = R ->
    (forall j, j <= k ->
       exists e, net (fetchCount log + j) request = Abrupt e) ->
    exists e,
      net (fetchCount log + k) request = Abrupt e
      /\ retryLoop net request R (S k) i lastError log
         = (log ++ failedAttempts request i k ++ [Fetch request], Abrupt e).
Proof.
  induction k as [|k IH]; intros i lastError log Hi Hfail;
    rewrite retryLoop_step.
  - destruct (Hfail 0 (Nat.le_refl 0)) as [e He]. exists e.
    split; [exact He|]. rewrite Nat.add_0_r in He. rewrite He.
    assert (Nat.ltb i R = false) as -> by (apply Nat.ltb_ge; lia).
    now rewrite retryLoop_done.
  - destruct (Hfail 0) as [e0 He0]; [lia|].
    rewrite Nat.add_0_r in He0. rewrite He0.
    assert (Nat.ltb i R = true) as -> by (apply Nat.ltb_lt; lia).
    destruct (IH (S i) e0
                 (log ++ [Fetch request; Sleep (2 ^ N.of_nat i * 1000)%N]))
      as (e & He & Hrun).
    + lia.
    + intros j Hj. rewrite fetchCount_attempt.
      destruct (Hfail (S j)) as [e' He']; [lia|].
      exists e'. rewrite <- He'. f_equal. lia.
    + exists e. split.
      * rewrite fetchCount_attempt in He. rewrite <- He. f_equal. lia.
      * rewrite Hrun. cbn [failedAttempts]. now rewrite <- !app_assoc.
Qed.

(** Among the attempts [0 .. k] either one answers first or all fail. *)
Lemma first_answer (net : Network) (request : UpstreamRequest) (start : nat) :
  forall k,
    (exists i r,
        i <= k
        /\ (forall j, j < i -> exists e, net (start + j) request = Abrupt e)
        /\ net (start + i) request = Normal r)
    \/ (forall j, j <= k -> exists e, net (start + j) request = Abrupt e).
Proof.
  induction k as [|k [(i & r & Hi & Hfail & Hok)|Hall]].
  - destruct (net (start + 0) request) as [r|e] eqn:E.
    + left. exists 0, r. split; [lia|]. split; [intros j Hj; lia | exact E].
    + right. intros j Hj. replace j with 0 by lia. now exists e.
  - left. exists i, r. split; [lia|]. now split.
  - destruct (net (start + S k) request) as [r|e] eqn:E.
    + left. exists (S k), r. split; [lia|]. split; [|exact E].
      intros j Hj. apply Hall. lia.
    + right. intros j Hj.
      destruct (Nat.eq_dec j (S k)) as [->|Hne]; [now exists e|].
      apply Hall. lia.
Qed.

(** X3.  Whatever the upstream does, [fetchWithRetry] ends in one of two ways.
    Either some attempt [i <= maxRetries] is the first not to throw: its
    response is returned after [i + 1] fetches and [i] sleeps.  Or all
    [maxRetries + 1] attempts throw: the error of the last one is thrown
    after [maxRetries + 1] fetches and [maxRetries] sleeps.  There is never
    another fetch or sleep. *)
Theorem fetchWithRetry_outcome
        (net : Network) (request : UpstreamRequest) (R : nat) (log : Log) :
  (exists i r,
      i <= R
      /\ (forall j, j < i ->
            exists e, net (fetchCount log + j) request = Abrupt e)
      /\ net (fetchCount log + i) request = Normal r
      /\ fetchWithRetry net request R log
         = (log ++ failedAttempts request 0 i ++ [Fetch request], Normal r))
  \/ (exists e,
         (forall j, j <= R ->
            exists e', net (fetchCount log + j) request = Abrupt e')
         /\ net (fetchCount log + R) request = Abrupt e
         /\ fetchWithRetry net request R log
            = (log ++ failedAttempts request 0 R ++ [Fetch request],
               Abrupt e)).
Proof.
  unfold fetchWithRetry.
  destruct (first_answer net request (fetchCount log) R)
    as [(i & r & Hi & Hfail & Hok)|Hall].
  - left. exists i, r. repeat split; try assumption.
    now apply retryLoop_first_response.
  - right.
    destruct (retryLoop_window_fail net request R R 0 Undefined log
                                    eq_refl Hall) as (e & He & Hrun).
    exists e. now repeat split.
Qed.

Lemma fetchWithRetry_outcome_shape
      (net : Network) (request : UpstreamRequest) (R : nat) (log : Log) :
  exists i,
    i <= R
    /\ fst (fetchWithRetry net request R log)
       = log ++ failedAttempts request 0 i ++ [Fetch request].
Proof.
  unfold fetchWithRetry.
  destruct (first_answer net request (fetchCount log) R)
    as [(i & r & Hi & Hfail & Hok)|Hall].
  - exists i. split; [exact Hi|].
    now rewrite (retryLoop_first_response net request r R i R 0 Undefined log).
  - destruct (retryLoop_window_fail net request R R 0 Undefined log
                                    eq_refl Hall) as (e & _ & ->).
    exists R. split; [lia | reflexivity].
Qed.

Lemma totalSleep_app (a b : Log) :
  totalSleep (a ++ b) = (totalSleep a + totalSleep b)%N.
Proof.
  unfold totalSleep. rewrite sleeps_app.
  induction (sleeps a) as [|x l IH]; cbn [app fold_right]; [reflexivity|].
  rewrite IH. lia.
Qed.

(** The sleeps after failed attempts [i .. i+k-1] add up to
    [2^(i+k) - 2^i] seconds. *)
Lemma totalSleep_failedAttempts (request : UpstreamRequest) :
  forall k i,
    (totalSleep (failedAttempts request i k) + 2 ^ N.of_nat i * 1000
     = 2 ^ N.of_nat (i + k) * 1000)%N.
Proof.
  induction k as [|k IH]; intros i.
  - rewrite Nat.add_0_r. reflexivity.
  - cbn [failedAttempts]. unfold totalSleep in *. cbn [sleeps fold_right].
    specialize (IH (S i)).
    replace (i + S k) with (S i + k) by lia.
    rewrite <- IH. rewrite Nat2N.inj_succ, N.pow_succ_r'. lia.
Qed.

(** X4.  The cost of one call of [fetchWithRetry], whatever the upstream does:
    at least one and at most [maxRetries + 1] fetches, every one of them of
    the request that was given, and at most [2^maxRetries - 1] seconds of
    back-off sleep. *)
Theorem fetchWithRetry_cost
        (net : Network) (request : UpstreamRequest) (R : nat) (log : Log) :
  exists extra,
    fst (fetchWithRetry net request R log) = log ++ extra
    /\ 1 <= fetchCount extra <= R + 1
    /\ (forall r, In (Fetch r) extra -> r = request)
    /\ (totalSleep extra + 1000 <= 2 ^ N.of_nat R * 1000)%N.
Proof.
  assert (forall i, i <= R ->
            1 <= fetchCount (failedAttempts request 0 i ++ [Fetch request])
                 <= R + 1
            /\ (forall r,
                   In (Fetch r) (failedAttempts request 0 i
                                 ++ [Fetch request]) -> r = request)
            /\ (totalSleep (failedAttempts request 0 i ++ [Fetch request])
                + 1000 <= 2 ^ N.of_nat R * 1000)%N) as Hshape.
  { intros i Hi. split; [|split].
    - rewrite fetchCount_app, fetchCount_failedAttempts.
      change (fetchCount [Fetch request]) with 1. lia.
    - intros r Hin. apply in_app_or in Hin. destruct Hin as [Hin|Hin].
      + clear Hi. generalize dependent 0.
        induction i as [|i IH]; intros a Hin; [contradiction|].
        cbn [failedAttempts In] in Hin.
        destruct Hin as [E|[E|Hin]];
          [now injection E | discriminate | now apply (IH (S a))].
      + destruct Hin as [E|[]]. now injection E.
    - rewrite totalSleep_app.
      change (totalSleep [Fetch request]) with 0%N.
      pose proof (totalSleep_failedAttempts request i 0) as Hsum.
      cbn [Nat.add] in Hsum. change (2 ^ N.of_nat 0 * 1000)%N with 1000%N in Hsum.
      assert (2 ^ N.of_nat i <= 2 ^ N.of_nat R)%N
        by (apply N.pow_le_mono_r; lia).
      lia. }
  destruct (fetchWithRetry_outcome_shape net request R log) as (i & Hi & ->).
  exists (failedAttempts request 0 i ++ [Fetch request]).
  split; [reflexivity|]. now apply Hshape.
Qed.

(** ** What a request costs and where it goes *)

(** The log of [handleRequest]: untouched, or that of the one call of
    [fetchWithRetry] for the target decoded from the path. *)
Lemma handleRequest_log (rt : Runtime) (net : Network) (page : jsstring)
      (request : IncomingRequest) (log : Log) :
  fst (handleRequest rt net page request log) = log
  \/ exists target,
       proxiedTo request target
       /\ fst (handleRequest rt net page request log)
          = fst (fetchWithRetry net (upstreamRequestFor request target) 3 log).
Proof.
  unfold handleRequest.
  destruct (jseqb (in_pathname request) (js "/")) eqn:Hroot; [now left|].
  cbv zeta.
  destruct (truthy (Some (slice1 (in_pathname request)))) eqn:Hne;
    [|now left].
  cbn [negb].
  destruct (decodeURIComponent (slice1 (in_pathname request)))
    as [target|] eqn:Hdec; [|now left].
  destruct (startsWith (js "http://") target
            || startsWith (js "https://") target) eqn:Hscheme.
  - rewrite <- negb_orb, Hscheme. cbn [negb].
    unfold tryCatch. rewrite proxyDownload_run.
    destruct (requestAccepted rt (upstreamRequestFor request target));
      [|now left].
    right. exists target. split.
    { split; [now apply jseqb_neq | now split]. }
    destruct (fetchWithRetry net (upstreamRequestFor request target) 3 log)
      as [log' [response|e]].
    + destruct (ok response); [|reflexivity]. cbv zeta.
      destruct (encodeURIComponent (extractFilename rt target));
        [|reflexivity].
      now destruct (legalHeaderValue rt _).
    + now destruct e.
  - rewrite <- negb_orb, Hscheme. now left.
Qed.

(** X5.  One request costs at most four upstream fetches and seven seconds of
    back-off sleep, whatever the request and whatever the upstream does. *)
Theorem handleRequest_cost
        (rt : Runtime) (net : Network) (page : jsstring)
        (request : IncomingRequest) (log : Log) :
  exists extra,
    fst (handleRequest rt net page request log) = log ++ extra
    /\ fetchCount extra <= 4
    /\ (totalSleep extra <= 7000)%N.
Proof.
  destruct (handleRequest_log rt net page request log)
    as [->|(target & _ & ->)].
  - exists []. rewrite app_nil_r. repeat split; [cbn; lia | cbn; lia].
  - destruct (fetchWithRetry_cost
                net (upstreamRequestFor request target) 3 log)
      as (extra & -> & Hcount & _ & Hsleep).
    exists extra. split; [reflexivity|]. split; [lia|].
    change (2 ^ N.of_nat 3 * 1000)%N with 8000%N in Hsleep. lia.
Qed.

(** X6.  The worker fetches nothing but the validated target: every fetch a
    request causes is made with the URL decoded from its path, which starts
    with [http://] or [https://], with the client's method, and with the
    headers of [upstreamRequestFor]. *)
Theorem fetches_only_validated_target
        (rt : Runtime) (net : Network) (page : jsstring)
        (request : IncomingRequest) (log : Log) :
  exists extra,
    fst (handleRequest rt net page request log) = log ++ extra
    /\ forall r,
         In (Fetch r) extra ->
         decodeURIComponent (slice1 (in_pathname request)) = Some (up_url r)
         /\ startsWith (js "http://") (up_url r)
            || startsWith (js "https://") (up_url r) = true
         /\ up_method r = in_method request
         /\ r = upstreamRequestFor request (up_url r).
Proof.
  destruct (handleRequest_log rt net page request log)
    as [->|(target & (_ & Hdec & Hscheme) & ->)].
  - exists []. rewrite app_nil_r. split; [reflexivity | contradiction].
  - destruct (fetchWithRetry_cost
                net (upstreamRequestFor request target) 3 log)
      as (extra & -> & _ & Hreq & _).
    exists extra. split; [reflexivity|].
    intros r Hin. rewrite (Hreq r Hin). cbn [up_url up_method].
    now repeat split.
Qed.

(** ** The responses of the handler *)

(** The responses [handleRequest] can return. *)
Lemma handleRequest_returns (rt : Runtime) (net : Network) (page : jsstring)
      (request : IncomingRequest) (log log' : Log) (out : Response) :
  handleRequest rt net page request log = (log', Normal out) ->
  out = newResponse rt (Some (BodyText page)) 200 None
                    [(js "Content-Type", js "text/html")]
  \/ (exists text, out = textResponse rt text 400)
  \/ (exists text, out = textResponse rt text 500)
  \/ (exists target response encoded,
         proxiedTo request target
         /\ ok response = true
         /\ headers out
            = normalizedHeaders response (extractFilename rt target) encoded
         /\ (status out = 200%N \/ status out = status response)).
Proof.
  unfold handleRequest.
  destruct (jseqb (in_pathname request) (js "/")) eqn:Hroot.
  { intros H. injection H as _ <-. now left. }
  cbv zeta.
  destruct (truthy (Some (slice1 (in_pathname request)))) eqn:Hne;
    cbn [negb].
  2:{ intros H. injection H as _ <-. right; left. now eexists. }
  destruct (decodeURIComponent (slice1 (in_pathname request)))
    as [target|] eqn:Hdec.
  2:{ intros H. injection H as _ <-. right; left. now eexists. }
  rewrite <- negb_orb.
  destruct (startsWith (js "http://") target
            || startsWith (js "https://") target) eqn:Hscheme; cbn [negb].
  2:{ intros H. injection H as _ <-. right; left. now eexists. }
  unfold tryCatch. rewrite proxyDownload_run.
  destruct (requestAccepted rt (upstreamRequestFor request target)).
  2:{ intros H. injection H as _ <-. right; right; left. now eexists. }
  destruct (fetchWithRetry net (upstreamRequestFor request target) 3 log)
    as [log1 [response|e]].
  2:{ destruct e; [|discriminate].
      intros H. injection H as _ <-. right; right; left. now eexists. }
  destruct (ok response) eqn:Hok.
  2:{ intros H. injection H as _ <-. right; right; left. now eexists. }
  cbv zeta.
  destruct (encodeURIComponent (extractFilename rt target)) as [encoded|].
  2:{ intros H. injection H as _ <-. right; right; left. now eexists. }
  destruct (legalHeaderValue rt _).
  2:{ intros H. injection H as _ <-. right; right; left. now eexists. }
  intros H. injection H as _ <-. right; right; right.
  exists target, response, encoded.
  split; [split; [now apply jseqb_neq | now split]|].
  split; [exact Hok|].
  destruct (jseqb (in_method request) (js "OPTIONS"));
    (split; [reflexivity|]); [now left | now right].
Qed.



(** X9.  An error response is bare: a response of status 400 or 500 has a
    text body, the plain-text content type as its only header, so neither
    the CORS headers nor [Content-Disposition], and the status text the host
    gives a response built without one. *)
Theorem error_response_is_bare
        (rt : Runtime) (net : Network) (page : jsstring)
        (request : IncomingRequest) (log log' : Log) (out : Response) :
  handleRequest rt net page request log = (log', Normal out) ->
  status out = 400%N \/ status out = 500%N ->
  headers out = [(js "content-type", js "text/plain;charset=UTF-8")]
  /\ statusText out = defaultStatusText rt (status out)
  /\ (exists text, body out = Some (BodyText text))
  /\ Headers.get (headers out) (js "Access-Control-Allow-Origin") = None
  /\ Headers.get (headers out) (js "Access-Control-Allow-Methods") = None
  /\ Headers.get (headers out) (js "Access-Control-Allow-Headers") = None
  /\ Headers.get (headers out) (js "Access-Control-Expose-Headers") = None
  /\ Headers.get (headers out) (js "Content-Disposition") = None.
Proof.
  intros H Hstatus.
  assert (exists text code, out = textResponse rt text code)
    as (text & code & ->).
  { destruct (handleRequest_returns rt net page request log log' out H)
      as [->|[[text ->]|[[text ->]|(target & response & encoded & _ & Hok
                                     & _ & Hrelay)]]].
    - destruct Hstatus as [E|E]; discriminate E.
    - now exists text, 400%N.
    - now exists text, 500%N.
    - exfalso. unfold ok, inRange in Hok.
      apply andb_true_iff in Hok. destruct Hok as [A B].
      apply N.leb_le in A, B.
      destruct Hrelay as [E|E], Hstatus as [E'|E']; rewrite E in E'; lia. }
  cbn [textResponse newResponse headers statusText status body].
  split; [reflexivity|]. split; [reflexivity|].
  split; [now exists text|].
  repeat split.
Qed.

Lemma error_response_is_bare_witness :
  exists log out,
    handleRequest (referenceRuntime 0)
                  (answering (exampleResponse 404 "Not Found")) []
                  (exampleRequest "GET" zipPath) []
    = (log, Normal out)
    /\ status out = 500%N
    /\ statusText out = js "Internal Server Error"
    /\ headers out = [(js "content-type", js "text/plain;charset=UTF-8")]
    /\ Headers.get (headers out) (js "Access-Control-Allow-Origin") = None.
Proof.
  eexists. eexists. split; [vm_compute; reflexivity|].
  split; [reflexivity|].
  edestruct (error_response_is_bare
               (referenceRuntime 0)
               (answering (exampleResponse 404 "Not Found"))
               [] (exampleRequest "GET" zipPath) [])
    as (Hheaders & Htext & _ & Hcors & _).
  - vm_compute. reflexivity.
  - right. reflexivity.
  - split; [exact Htext|]. split; [exact Hheaders | exact Hcors].
Defined.

Lemma handleRequest_always_responds_witness :
  exists log out,
    handleRequest (referenceRuntime 0) unreachable []
                  (exampleRequest "POST" zipPath) []
    = (log, Normal out).
Proof.
  apply (handleRequest_always_responds
           (referenceRuntime 0) unreachable []
           (exampleRequest "POST" zipPath) []).
  intros n r. discriminate.
Defined.

(** ** Response headers *)

Lemma existsb_app_false {A} (f : A -> bool) (a b : list A) :
  existsb f (a ++ b) = false -> existsb f a = false /\ existsb f b = false.
Proof. rewrite existsb_app. apply orb_false_elim. Qed.

(** X10.  Nothing else of the upstream's headers is relayed: a response built
    by [proxyDownload] has no header whose name is not among the eight copied
    ones, [Content-Disposition] and the four CORS headers.  A [Set-Cookie] or
    [Server] header of the upstream never reaches the client. *)
Theorem response_headers_allowlist
        (rt : Runtime) (net : Network) (request : IncomingRequest)
        (target : jsstring) (log log' : Log) (out : Response) (n : jsstring) :
  proxyDownload rt net request target log = (log', Normal out) ->
  existsb (Headers.sameName n) responseHeaderNames = false ->
  Headers.get (headers out) n = None.
Proof.
  intros Hout Hn.
  destruct (proxyDownload_returns rt net request target log log' out Hout)
    as (response & encoded & _ & _ & _ & ->).
  unfold responseHeaderNames in Hn.
  apply existsb_app_false in Hn. destruct Hn as [Himportant Hadded].
  cbn [existsb] in Hadded. apply orb_false_elim in Hadded.
  destruct Hadded as [Hcd Hcors].
  unfold normalizedHeaders.
  rewrite get_setAll_other.
  2:{ rewrite forallb_forall. intros e He.
      apply negb_true_iff.
      destruct (Headers.sameName n (fst e)) eqn:E; [|reflexivity].
      assert (existsb (Headers.sameName n) (map fst corsHeaders) = true)
        as Habs; [|congruence].
      apply existsb_exists. exists (fst e). split; [|exact E].
      now apply in_map. }
  rewrite HeadersFacts.get_set_other by exact Hcd.
  assert (Headers.sameName n (js "accept-ranges") = false) as Hranges.
  { cbn [importantHeaders existsb] in Himportant.
    repeat (apply orb_false_elim in Himportant;
            destruct Himportant as [? Himportant]).
    assumption. }
  assert (Headers.get (copyHeaders importantHeaders (headers response) []) n
          = None) as Hcopy.
  { rewrite get_copyHeaders, Himportant. reflexivity. }
  unfold copiedHeaders.
  destruct (negb (Headers.has _ (js "accept-ranges"))); [|exact Hcopy].
  now rewrite HeadersFacts.get_set_other by exact Hranges.
Qed.

Lemma response_headers_allowlist_witness :
  Headers.get (headers (exampleResponse 200 "OK")) (js "server")
  = Some (js "nginx")
  /\ exists log out,
       proxyDownload (referenceRuntime 0)
                     (answering (exampleResponse 200 "OK"))
                     (exampleRequest "GET" zipPath) zipURL []
       = (log, Normal out)
       /\ Headers.get (headers out) (js "server") = None.
Proof.
  split; [reflexivity|].
  eexists. eexists. split; [vm_compute; reflexivity|].
  eapply (response_headers_allowlist
            (referenceRuntime 0) (answering (exampleResponse 200 "OK"))
            (exampleRequest "GET" zipPath) zipURL []).
  - vm_compute. reflexivity.
  - reflexivity.
Defined.

(** X11.  Every response [proxyDownload] builds, for whatever method, carries
    the four CORS headers with the worker's fixed values. *)
Theorem cors_on_every_proxied_response
        (rt : Runtime) (net : Network) (request : IncomingRequest)
        (target : jsstring) (log log' : Log) (out : Response) :
  proxyDownload rt net request target log = (log', Normal out) ->
  Headers.get (headers out) (js "Access-Control-Allow-Origin")
  = Some (js "*")
  /\ Headers.get (headers out) (js "Access-Control-Allow-Methods")
     = Some (js "GET, HEAD, OPTIONS")
  /\ Headers.get (headers out) (js "Access-Control-Allow-Headers")
     = Some (js "Range, Content-Type")
  /\ Headers.get (headers out) (js "Access-Control-Expose-Headers")
     = Some (js "Content-Length, Content-Range, Accept-Ranges, Content-Disposition").
Proof.
  intros Hout.
  destruct (proxyDownload_returns rt net request target log log' out Hout)
    as (response & encoded & _ & _ & _ & ->).
  unfold normalizedHeaders.
  repeat split.
  - apply (get_cors _ (js "Access-Control-Allow-Origin", js "*")).
    cbn; tauto.
  - apply (get_cors _ (js "Access-Control-Allow-Methods",
                       js "GET, HEAD, OPTIONS")).
    cbn; tauto.
  - apply (get_cors _ (js "Access-Control-Allow-Headers",
                       js "Range, Content-Type")).
    cbn; tauto.
  - apply (get_cors
             _ (js "Access-Control-Expose-Headers",
                js "Content-Length, Content-Range, Accept-Ranges, Content-Disposition")).
    cbn; tauto.
Qed.

Lemma cors_on_every_proxied_response_witness :
  exists log out,
    proxyDownload (referenceRuntime 0)
                  (answering (exampleResponse 200 "OK"))
                  (exampleRequest "DELETE" zipPath) zipURL []
    = (log, Normal out)
    /\ Headers.get (headers out) (js "access-control-allow-origin")
       = Some (js "*").
Proof.
  eexists. eexists. split; [vm_compute; reflexivity|].
  rewrite (HeadersFacts.get_subst _ (js "access-control-allow-origin")
                                  (js "Access-Control-Allow-Origin")
                                  eq_refl).
  eapply (cors_on_every_proxied_response
            (referenceRuntime 0) (answering (exampleResponse 200 "OK"))
            (exampleRequest "DELETE" zipPath) zipURL []).
  vm_compute. reflexivity.
Defined.

(** ** More on the file name *)

Lemma tokens_without_percent (s : jsstring) :
  includes 37 s = false -> tokens s = Some (map Lit s).
Proof.
  unfold includes. induction s as [|c s IH]; [reflexivity|].
  cbn [existsb]. intros H. apply orb_false_elim in H. destruct H as [Hc Hs].
  rewrite tokens_literal, (IH Hs); [reflexivity|].
  apply N.eqb_neq in Hc. congruence.
Qed.

Lemma assemble_literals (s : jsstring) : assemble (map Lit s) = Some s.
Proof.
  induction s as [|c s IH]; [reflexivity|].
  cbn [map assemble]. now rewrite IH.
Qed.

(** Without a percent sign there is nothing to decode. *)
Lemma decode_without_percent (s : jsstring) :
  includes 37 s = false -> decodeURIComponent s = Some s.
Proof.
  intros H. unfold decodeURIComponent.
  rewrite (tokens_without_percent s H). apply assemble_literals.
Qed.

Lemma replaceClass_no_percent (s : jsstring) :
  includes 37 s = false ->
  includes 37 (replaceClass invalidFilenameChar s) = false.
Proof.
  unfold includes, replaceClass. induction s as [|c s IH]; [reflexivity|].
  cbn [map existsb]. intros H. apply orb_false_elim in H.
  destruct H as [Hc Hs]. rewrite (IH Hs), orb_false_r.
  now destruct (invalidFilenameChar c).
Qed.

Lemma split_nonempty (c : N) (p : jsstring) : split c p <> [].
Proof.
  destruct p as [|x p]; cbn [split]; [discriminate|].
  destruct (N.eqb x c); [discriminate|].
  destruct (split c p); discriminate.
Qed.

Lemma split_chars (c : N) (p : jsstring) :
  forall seg x, In seg (split c p) -> In x seg -> In x p.
Proof.
  induction p as [|y p IH]; intros seg x Hseg Hx; cbn [split] in Hseg.
  - destruct Hseg as [<-|[]]. contradiction.
  - destruct (N.eqb y c).
    + destruct Hseg as [<-|Hseg]; [contradiction|].
      right. now apply (IH seg).
    + destruct (split c p) as [|seg0 segs] eqn:E.
      * destruct Hseg as [<-|[]]. destruct Hx as [<-|[]]. now left.
      * destruct Hseg as [<-|Hseg].
        -- destruct Hx as [<-|Hx]; [now left|].
           right. apply (IH seg0); [now left | exact Hx].
        -- right. apply (IH seg); [now right | exact Hx].
Qed.

Lemma lastElement_in (a : list jsstring) (s : jsstring) :
  lastElement a = Some s -> In s a.
Proof.
  induction a as [|x a IH]; [discriminate|].
  cbn [lastElement]. destruct a as [|y a'].
  - intros H. injection H as <-. now left.
  - intros H. right. now apply IH.
Qed.

Lemma includes_false_in (c : N) (s : jsstring) :
  includes c s = false <-> ~ In c s.
Proof.
  unfold includes. split.
  - intros H Hin.
    assert (existsb (N.eqb c) s = true) as Habs; [|congruence].
    apply existsb_exists. exists c. split; [exact Hin | apply N.eqb_refl].
  - intros H. destruct (existsb (N.eqb c) s) eqn:E; [|reflexivity].
    apply existsb_exists in E. destruct E as (x & Hin & Heq).
    apply N.eqb_eq in Heq. subst x. contradiction.
Qed.

Lemma searchParams_get_in (params : list (jsstring * jsstring))
      (name v : jsstring) :
  searchParams_get params name = Some v -> exists k, In (k, v) params.
Proof.
  induction params as [|[k w] params IH]; [discriminate|].
  cbn [searchParams_get]. destruct (jseqb k name).
  - intros H. injection H as <-. exists k. now left.
  - intros H. destruct (IH H) as [k' Hin]. exists k'. now right.
Qed.

(** The loop returns the candidate it was given or the value of some
    parameter. *)
Lemma scanParams_source (params : list (jsstring * jsstring))
      (filename : option jsstring) (names : list jsstring) :
  scanParams params names filename = filename
  \/ exists k v, In (k, v) params
                 /\ scanParams params names filename = Some v.
Proof.
  induction names as [|name names IH]; cbn [scanParams]; [now left|].
  destruct (searchParams_get params name) as [v|] eqn:E; [|exact IH].
  destruct (truthy (Some v) && includes 46 v); [|exact IH].
  right. destruct (searchParams_get_in params name v E) as [k Hin].
  now exists k, v.
Qed.

Lemma digits_clean (u : Decimal.uint) :
  existsb invalidFilenameChar (digits u) = false.
Proof. induction u; cbn [digits existsb]; [reflexivity | exact IHu ..]. Qed.

Lemma hostname_char_clean (c : N) :
  invalidHostnameChar c = false -> invalidFilenameChar c = false.
Proof.
  unfold invalidHostnameChar, isLower, isUpper, isDigit, inRange.
  intros H. apply negb_false_iff in H.
  assert ((97 <= c <= 122) \/ (65 <= c <= 90) \/ (48 <= c <= 57)
          \/ c = 46 \/ c = 45)%N as Hc.
  { repeat (apply orb_true_iff in H; destruct H as [H|H]).
    - apply andb_true_iff in H. rewrite !N.leb_le in H. now left.
    - apply andb_true_iff in H. rewrite !N.leb_le in H. right; now left.
    - apply andb_true_iff in H. rewrite !N.leb_le in H.
      right; right; now left.
    - apply N.eqb_eq in H. right; right; right; now left.
    - apply N.eqb_eq in H. right; right; right; now right. }
  unfold invalidFilenameChar. cbn [existsb].
  repeat match goal with
         | |- context [N.eqb c ?k] =>
             assert (N.eqb c k = false) as -> by (apply N.eqb_neq; lia)
         end.
  reflexivity.
Qed.

Lemma hostname_clean (h : jsstring) :
  existsb invalidFilenameChar (replaceClass invalidHostnameChar h) = false.
Proof.
  unfold replaceClass. induction h as [|c h IH]; [reflexivity|].
  cbn [map existsb]. rewrite IH, orb_false_r.
  destruct (invalidHostnameChar c) eqn:E;
    [reflexivity | now apply hostname_char_clean].
Qed.

(** The generated names hold none of the forbidden characters. *)
Lemma generated_clean (h : jsstring) (n : N) :
  existsb invalidFilenameChar
          (js "download_" ++ replaceClass invalidHostnameChar h
           ++ js "_" ++ decimal n) = false.
Proof.
  unfold decimal. now rewrite !existsb_app, hostname_clean, digits_clean.
Qed.

Lemma fallback_clean (n : N) :
  existsb invalidFilenameChar (js "download_" ++ decimal n) = false.
Proof. unfold decimal. now rewrite existsb_app, digits_clean. Qed.

(** X12.  When neither the path of the URL nor the values of its
    query parameters hold a percent sign, the name [extractFilename] returns
    holds none of the forbidden characters. *)
Theorem extractFilename_clean_without_escapes
        (rt : Runtime) (url : jsstring) :
  (forall urlObj,
      parseURL rt url = Some urlObj ->
      includes 37 (url_pathname urlObj) = false
      /\ forall k v, In (k, v) (url_searchParams urlObj) ->
                     includes 37 v = false) ->
  existsb invalidFilenameChar (extractFilename rt url) = false.
Proof.
  intros Hplain. unfold extractFilename, extractFilename_try.
  destruct (parseURL rt url) as [urlObj|]; [|apply fallback_clean].
  destruct (Hplain urlObj eq_refl) as [Hpath Hparams]. cbv zeta.
  set (segments := filter (fun segment => Nat.ltb 0 (List.length segment))
                         (split 47 (url_pathname urlObj))).
  assert (forall s, lastElement segments = Some s -> includes 37 s = false)
    as Hlast.
  { intros s Hs. apply lastElement_in in Hs. apply filter_In in Hs.
    destruct Hs as [Hs _]. apply includes_false_in. intros Hin.
    apply includes_false_in in Hpath. apply Hpath.
    now apply (split_chars 47 _ s). }
  set (candidate := if lacksExtension (lastElement segments)
                    then scanParams (url_searchParams urlObj) filenameParams
                                    (lastElement segments)
                    else lastElement segments).
  assert (forall s, candidate = Some s -> includes 37 s = false) as Hcand.
  { intros s Hs. unfold candidate in Hs.
    destruct (lacksExtension (lastElement segments)); [|now apply Hlast].
    destruct (scanParams_source (url_searchParams urlObj)
                                (lastElement segments) filenameParams)
      as [E|(k & v & Hin & E)]; rewrite E in Hs.
    - now apply Hlast.
    - injection Hs as <-. now apply (Hparams k). }
  pose proof (generated_clean (url_hostname urlObj) (dateNow rt)) as Hgen.
  destruct candidate as [s|]; [|exact Hgen].
  destruct (truthy (Some s)) eqn:Htruthy.
  - rewrite decode_without_percent
      by (apply replaceClass_no_percent, Hcand; reflexivity).
    cbn [option_map].
    destruct (lacksExtension _);
      [exact Hgen | apply replaceClass_clean].
  - destruct s; [|discriminate Htruthy]. exact Hgen.
Qed.

Lemma extractFilename_clean_without_escapes_witness :
  extractFilename (referenceRuntime 0) (js "https://a.com/a:b*c.txt?v=1")
  = js "a_b_c.txt"
  /\ existsb invalidFilenameChar
             (extractFilename (referenceRuntime 0)
                              (js "https://a.com/a:b*c.txt?v=1"))
     = false.
Proof.
  split; [reflexivity|].
  apply extractFilename_clean_without_escapes.
  intros urlObj H. vm_compute in H. injection H as <-.
  split; [reflexivity|].
  intros k v [E|[]]. injection E as _ <-. reflexivity.
Defined.

Lemma split_snoc (c : N) (p : jsstring) :
  split c (p ++ [c]) = split c p ++ [[]].
Proof.
  induction p as [|x p IH]; cbn [app split].
  - now rewrite N.eqb_refl.
  - destruct (N.eqb x c); rewrite IH; [reflexivity|].
    pose proof (split_nonempty c p) as Hne.
    destruct (split c p); [contradiction | reflexivity].
Qed.

(** X13.  A slash at the end of the path changes nothing: the empty segment
    after it is discarded, and the name is still taken from the last segment
    that is not empty. *)
Theorem trailing_slash_ignored
        (rt : Runtime) (url url' : jsstring) (urlObj : URL) :
  parseURL rt url = Some urlObj ->
  parseURL rt url'
  = Some {| url_pathname := url_pathname urlObj ++ js "/";
            url_hostname := url_hostname urlObj;
            url_searchParams := url_searchParams urlObj |} ->
  extractFilename rt url' = extractFilename rt url.
Proof.
  intros H H'. unfold extractFilename, extractFilename_try.
  rewrite H, H'. cbn [url_pathname url_hostname url_searchParams].
  change (js "/") with [47%N].
  rewrite split_snoc, filter_app. cbn [filter List.length Nat.ltb Nat.leb].
  now rewrite app_nil_r.
Qed.

Lemma trailing_slash_ignored_witness :
  extractFilename (referenceRuntime 0) (js "https://a.com/dir/file.zip/")
  = extractFilename (referenceRuntime 0) (js "https://a.com/dir/file.zip")
  /\ extractFilename (referenceRuntime 0) (js "https://a.com/dir/file.zip/")
     = js "file.zip".
Proof.
  split; [|reflexivity].
  apply (trailing_slash_ignored
           (referenceRuntime 0)
           (js "https://a.com/dir/file.zip")
           (js "https://a.com/dir/file.zip/")
           {| url_pathname := js "/dir/file.zip";
              url_hostname := js "a.com";
              url_searchParams := [] |});
    reflexivity.
Defined.

Lemma tokens_keep_literal (c : N) (n : nat) :
  c <> 37%N -> hexval c = None ->
  forall s ts,
    List.length s <= n ->
    tokens s = Some ts ->
    includes c s = true ->
    In (Lit c) ts.
Proof.
  intros Hc Hhex. induction n as [|n IH]; intros s ts Hlen Htok Hin.
  - destruct s; [discriminate Hin | cbn in Hlen; lia].
  - destruct s as [|x rest]; [discriminate Hin|].
    cbn [List.length] in Hlen. cbn [tokens] in Htok.
    destruct (N.eqb_spec x 37) as [->|Hx].
    + destruct rest as [|h1 [|h2 rest']]; try discriminate.
      destruct (hexval h1) as [a|] eqn:E1; [|discriminate].
      destruct (hexval h2) as [b|] eqn:E2; [|discriminate].
      destruct (tokens rest') as [ts'|] eqn:E; [|discriminate].
      injection Htok as <-. right.
      apply (IH rest'); [cbn [List.length] in Hlen; lia | exact E |].
      unfold includes in *. cbn [existsb] in Hin.
      assert (N.eqb c 37 = false) as R0 by now apply N.eqb_neq.
      assert (N.eqb c h1 = false) as R1
          by (apply N.eqb_neq; intros ->; congruence).
      assert (N.eqb c h2 = false) as R2
          by (apply N.eqb_neq; intros ->; congruence).
      now rewrite R0, R1, R2 in Hin.
    + destruct (tokens rest) as [ts'|] eqn:E; [|discriminate].
      injection Htok as <-.
      unfold includes in Hin. cbn [existsb] in Hin.
      destruct (N.eqb_spec c x) as [->|Hcx]; [now left|].
      right. apply (IH rest); [lia | exact E | exact Hin].
Qed.

Lemma assemble_keeps_literal (c : N) (n : nat) :
  forall ts d,
    List.length ts <= n ->
    assemble ts = Some d ->
    In (Lit c) ts ->
    In c d.
Proof.
  induction n as [|n IH]; intros ts d Hlen Hd Hin.
  - destruct ts; [contradiction | cbn in Hlen; lia].
  - destruct ts as [|[x|b] ts']; [contradiction| |];
      cbn [List.length] in Hlen; cbn [assemble] in Hd.
    + destruct (assemble ts') as [d'|] eqn:E; [|discriminate].
      injection Hd as <-.
      destruct Hin as [Heq|Hin]; [injection Heq as <-; now left|].
      right. apply (IH ts'); [lia | exact E | exact Hin].
    + destruct Hin as [Heq|Hin]; [discriminate|].
      destruct (N.ltb b 128).
      { destruct (assemble ts') as [d'|] eqn:E; [|discriminate].
        injection Hd as <-. right.
        apply (IH ts'); [lia | exact E | exact Hin]. }
      destruct (inRange 194 223 b).
      { destruct ts' as [|[?|b1] r]; try discriminate.
        destruct (cont b1); [|discriminate].
        destruct (assemble r) as [d'|] eqn:E; [|discriminate].
        injection Hd as <-. apply in_or_app. right.
        destruct Hin as [Heq|Hin]; [discriminate|].
        apply (IH r); [cbn [List.length] in Hlen; lia | exact E | exact Hin]. }
      destruct (inRange 224 239 b).
      { destruct ts' as [|[?|b1] [|[?|b2] r]]; try discriminate.
        destruct (second3 b b1 && cont b2); [|discriminate].
        destruct (assemble r) as [d'|] eqn:E; [|discriminate].
        injection Hd as <-. apply in_or_app. right.
        destruct Hin as [Heq|[Heq|Hin]]; [discriminate | discriminate |].
        apply (IH r); [cbn [List.length] in Hlen; lia | exact E | exact Hin]. }
      destruct (inRange 240 244 b); [|discriminate].
      destruct ts' as [|[?|b1] [|[?|b2] [|[?|b3] r]]]; try discriminate.
      destruct (second4 b b1 && cont b2 && cont b3); [|discriminate].
      destruct (assemble r) as [d'|] eqn:E; [|discriminate].
      injection Hd as <-. apply in_or_app. right.
      destruct Hin as [Heq|[Heq|[Heq|Hin]]];
        [discriminate | discriminate | discriminate |].
      apply (IH r); [cbn [List.length] in Hlen; lia | exact E | exact Hin].
Qed.

(** Decoding keeps a dot that is there. *)
Lemma decode_keeps_dot (s d : jsstring) :
  decodeURIComponent s = Some d ->
  includes 46 s = true ->
  includes 46 d = true.
Proof.
  unfold decodeURIComponent. intros Hd Hin.
  destruct (tokens s) as [ts|] eqn:E; [|discriminate].
  assert (In (Lit 46) ts) as Hlit.
  { apply (tokens_keep_literal 46 (List.length s)) with (s := s);
      [discriminate | reflexivity | apply Nat.le_refl | exact E | exact Hin]. }
  apply existsb_exists. exists 46%N. split; [|reflexivity].
  now apply (assemble_keeps_literal 46 (List.length ts) ts d).
Qed.

Lemma replaceClass_keeps_dot (s : jsstring) :
  includes 46 s = true ->
  includes 46 (replaceClass invalidFilenameChar s) = true.
Proof.
  unfold includes, replaceClass. induction s as [|c s IH]; [discriminate|].
  cbn [map existsb]. intros H. apply orb_true_iff in H.
  destruct H as [H|H].
  - apply N.eqb_eq in H. subst c. reflexivity.
  - rewrite (IH H). apply orb_true_r.
Qed.

(** X14.  The path wins over the query.  When the last non-empty segment of the
    path holds a dot, the name is that segment with the forbidden characters
    replaced and the escapes decoded, whatever the query parameters and the
    host are; and when its escapes are malformed the name is
    [download_<time>], without the host. *)
Theorem path_name_wins
        (rt : Runtime) (url : jsstring) (urlObj : URL) (s : jsstring) :
  parseURL rt url = Some urlObj ->
  lastElement (filter (fun segment => Nat.ltb 0 (List.length segment))
                      (split 47 (url_pathname urlObj))) = Some s ->
  includes 46 s = true ->
  extractFilename rt url
  = match decodeURIComponent (replaceClass invalidFilenameChar s) with
    | Some decoded => decoded
    | None => js "download_" ++ decimal (dateNow rt)
    end.
Proof.
  intros Hparse Hlast Hdot. unfold extractFilename, extractFilename_try.
  rewrite Hparse. cbv zeta. rewrite Hlast.
  assert (truthy (Some s) = true) as Htruthy
      by (apply truthy_nonempty, (includes_nonempty 46), Hdot).
  assert (lacksExtension (Some s) = false) as ->
      by (unfold lacksExtension; now rewrite Htruthy, Hdot).
  rewrite Htruthy.
  destruct (decodeURIComponent (replaceClass invalidFilenameChar s))
    as [decoded|] eqn:Hdec; cbn [option_map]; [|reflexivity].
  pose proof (decode_keeps_dot _ _ Hdec (replaceClass_keeps_dot s Hdot))
    as Hdot'.
  assert (lacksExtension (Some decoded) = false) as ->; [|reflexivity].
  unfold lacksExtension.
  now rewrite (proj2 (truthy_nonempty decoded)
                     (includes_nonempty 46 decoded Hdot')), Hdot'.
Qed.

Lemma path_name_wins_witness :
  extractFilename (referenceRuntime 0)
                  (js "https://a.com/v1/setup.exe?filename=other.bin")
  = js "setup.exe"
  /\ extractFilename (referenceRuntime 5)
                     (js "https://a.com/v1/100%.pdf?filename=other.bin")
     = js "download_5".
Proof.
  split.
  - apply (path_name_wins
             (referenceRuntime 0)
             (js "https://a.com/v1/setup.exe?filename=other.bin")
             {| url_pathname := js "/v1/setup.exe";
                url_hostname := js "a.com";
                url_searchParams := [(js "filename", js "other.bin")] |}
             (js "setup.exe")); reflexivity.
  - apply (path_name_wins
             (referenceRuntime 5)
             (js "https://a.com/v1/100%.pdf?filename=other.bin")
             {| url_pathname := js "/v1/100%.pdf";
                url_hostname := js "a.com";
                url_searchParams := [(js "filename", js "other.bin")] |}
             (js "100%.pdf")); reflexivity.
Defined.

(** ** Preflight and the status of the response (claims C1 and C2) *)

(** A proxied request that the host accepts has the log of its one call of
    [fetchWithRetry]. *)
Lemma proxied_log (rt : Runtime) (net : Network) (page : jsstring)
      (request : IncomingRequest) (target : jsstring) (log : Log) :
  proxiedTo request target ->
  requestAccepted rt (upstreamRequestFor request target) = true ->
  fst (handleRequest rt net page request log)
  = fst (fetchWithRetry net (upstreamRequestFor request target) 3 log).
Proof.
  intros Hvalid Haccept.
  rewrite (handleRequest_proxied rt net page request target Hvalid).
  unfold tryCatch. rewrite proxyDownload_run, Haccept.
  destruct (fetchWithRetry net (upstreamRequestFor request target) 3 log)
    as [log' [response|e]].
  - destruct (ok response); [|reflexivity]. cbv zeta.
    destruct (encodeURIComponent (extractFilename rt target));
      [|reflexivity].
    now destruct (legalHeaderValue rt _).
  - now destruct e.
Qed.

(** C1, as the code has it.  For every [OPTIONS] request whose path decodes
    to a valid http(s) target that the host's [Request] constructor
    accepts, the handler calls the upstream fetch first: between one and
    four attempts, never none, whatever the upstream does.  When that fetch
    obtains a response of status 200-299 and the [Content-Disposition]
    header can be built, the handler answers 200 with an empty body and the
    four CORS headers; any other response it returns is a 500. *)
Theorem options_preflight
        (rt : Runtime) (net : Network) (page : jsstring)
        (request : IncomingRequest) (target : jsstring) (log : Log) :
  in_method request = js "OPTIONS" ->
  proxiedTo request target ->
  requestAccepted rt (upstreamRequestFor request target) = true ->
  let preflight (out : Response) :=
    status out = 200%N
    /\ body out = None
    /\ Headers.get (headers out) (js "Access-Control-Allow-Origin")
       = Some (js "*")
    /\ Headers.get (headers out) (js "Access-Control-Allow-Methods")
       = Some (js "GET, HEAD, OPTIONS")
    /\ Headers.get (headers out) (js "Access-Control-Allow-Headers")
       = Some (js "Range, Content-Type")
    /\ Headers.get (headers out) (js "Access-Control-Expose-Headers")
       = Some (js "Content-Length, Content-Range, Accept-Ranges, Content-Disposition")
  in
  (exists extra,
      fst (handleRequest rt net page request log) = log ++ extra
      /\ 1 <= fetchCount extra <= 4)
  /\ (forall log' response encoded,
         fetchWithRetry net (upstreamRequestFor request target) 3 log
         = (log', Normal response) ->
         (200 <= status response <= 299)%N ->
         encodeURIComponent (extractFilename rt target) = Some encoded ->
         legalHeaderValue
           rt (contentDisposition (extractFilename rt target) encoded)
         = true ->
         exists out,
           handleRequest rt net page request log = (log', Normal out)
           /\ preflight out)
  /\ (forall log' out,
         handleRequest rt net page request log = (log', Normal out) ->
         preflight out \/ status out = 500%N).
Proof.
  intros Hmethod Hvalid Haccept preflight.
  assert (forall response encoded,
             preflight (newResponse
                          rt None 200 None
                          (normalizedHeaders response
                                             (extractFilename rt target)
                                             encoded))) as Hpre.
  { intros response encoded. unfold preflight, normalizedHeaders.
    cbn [newResponse status body headers].
    split; [reflexivity|]. split; [reflexivity|].
    repeat split.
    - apply (get_cors _ (js "Access-Control-Allow-Origin", js "*")).
      cbn; tauto.
    - apply (get_cors _ (js "Access-Control-Allow-Methods",
                         js "GET, HEAD, OPTIONS")).
      cbn; tauto.
    - apply (get_cors _ (js "Access-Control-Allow-Headers",
                         js "Range, Content-Type")).
      cbn; tauto.
    - apply (get_cors
               _ (js "Access-Control-Expose-Headers",
                  js "Content-Length, Content-Range, Accept-Ranges, Content-Disposition")).
      cbn; tauto. }
  split; [|split].
  - rewrite (proxied_log rt net page request target log Hvalid Haccept).
    destruct (fetchWithRetry_outcome_shape
                net (upstreamRequestFor request target) 3 log)
      as (i & Hi & ->).
    eexists. split; [reflexivity|].
    rewrite fetchCount_app, fetchCount_failedAttempts.
    change (fetchCount [Fetch (upstreamRequestFor request target)]) with 1.
    lia.
  - intros log' response encoded Hfetch Hok Henc Hlegal.
    apply ok_iff_2xx in Hok.
    rewrite (handleRequest_proxied rt net page request target Hvalid).
    unfold tryCatch.
    rewrite proxyDownload_run, Haccept, Hfetch, Hok. cbv zeta.
    rewrite Henc, Hlegal, Hmethod, jseqb_refl.
    eexists. split; [reflexivity | apply Hpre].
  - intros log' out.
    rewrite (handleRequest_proxied rt net page request target Hvalid).
    unfold tryCatch. rewrite proxyDownload_run, Haccept.
    destruct (fetchWithRetry net (upstreamRequestFor request target) 3 log)
      as [log1 [response|e]].
    + destruct (ok response).
      2:{ intros H. injection H as _ <-. now right. }
      cbv zeta.
      destruct (encodeURIComponent (extractFilename rt target))
        as [encoded|].
      2:{ intros H. injection H as _ <-. now right. }
      destruct (legalHeaderValue rt _).
      2:{ intros H. injection H as _ <-. now right. }
      rewrite Hmethod, jseqb_refl.
      intros H. injection H as _ <-. left. apply Hpre.
    + destruct e; [|discriminate].
      intros H. injection H as _ <-. now right.
Qed.

Lemma options_preflight_witness :
  exists out,
    handleRequest (referenceRuntime 0)
                  (flaky 1 (exampleResponse 200 "OK")) []
                  (exampleRequest "OPTIONS" zipPath) []
    = ([Fetch (upstreamRequestFor (exampleRequest "OPTIONS" zipPath) zipURL);
        Sleep 1000;
        Fetch (upstreamRequestFor (exampleRequest "OPTIONS" zipPath) zipURL)],
       Normal out)
    /\ status out = 200%N
    /\ body out = None
    /\ Headers.get (headers out) (js "Access-Control-Allow-Origin")
       = Some (js "*").
Proof.
  destruct (options_preflight
              (referenceRuntime 0)
              (flaky 1 (exampleResponse 200 "OK")) []
              (exampleRequest "OPTIONS" zipPath) zipURL [])
    as (_ & Hok & _).
  - reflexivity.
  - split; [intros E; vm_compute in E; discriminate E | split; reflexivity].
  - reflexivity.
  - destruct (Hok [Fetch (upstreamRequestFor
                            (exampleRequest "OPTIONS" zipPath) zipURL);
                   Sleep 1000;
                   Fetch (upstreamRequestFor
                            (exampleRequest "OPTIONS" zipPath) zipURL)]
                  (exampleResponse 200 "OK") (js "file.zip")
                  eq_refl ltac:(cbn [status exampleResponse]; lia)
                  eq_refl eq_refl)
      as (out & Hrun & Hstatus & Hbody & Hcors & _).
    exists out. repeat split; assumption.
Defined.

(** The upstream answers 200, but the file name decodes to a line feed and
    the host refuses the [Content-Disposition] value: the request reached
    the upstream, obtained a response of status 200, and is answered with a
    500. *)
Lemma ok_upstream_answered_500 :
  exists log out,
    handleRequest (referenceRuntime 0)
                  (answering (exampleResponse 200 "OK")) []
                  (exampleRequest "GET" "/https%3A%2F%2Fa.com%2Fa%250Ab.txt")
                  []
    = (log, Normal out)
    /\ fetchCount log = 1
    /\ ok (exampleResponse 200 "OK") = true
    /\ status out = 500%N
    /\ status out <> status (exampleResponse 200 "OK")
    /\ ~ ((status out = status (exampleResponse 200 "OK")
           /\ statusText out = statusText (exampleResponse 200 "OK"))
          <-> (ok (exampleResponse 200 "OK") = true
               \/ status (exampleResponse 200 "OK") = 206%N)).
Proof.
  eexists. eexists. split; [vm_compute; reflexivity|].
  split; [reflexivity|]. split; [reflexivity|]. split; [reflexivity|].
  split; [discriminate|].
  intros [_ H]. destruct (H (or_introl eq_refl)) as [E _]. discriminate E.
Qed.

(** An upstream 500 is answered with a 500 as well: the status code of the
    response equals the upstream's although the upstream failed.  With the
    reason phrase of the reference host the status text is the same too. *)
Lemma upstream_500_same_status_line :
  exists log out,
    handleRequest (referenceRuntime 0)
                  (answering (exampleResponse 500 "Internal Server Error"))
                  [] (exampleRequest "GET" zipPath) []
    = (log, Normal out)
    /\ ok (exampleResponse 500 "Internal Server Error") = false
    /\ status out = status (exampleResponse 500 "Internal Server Error")
    /\ statusText out
       = statusText (exampleResponse 500 "Internal Server Error")
    /\ body out
       = Some (BodyText
                 (js "Proxy error: Upstream server responded with 500: Internal Server Error")).
Proof.
  eexists. eexists. split; [vm_compute; reflexivity|].
  repeat split.
Qed.

(** C2, as the code has it.  For every request of a method other than
    [OPTIONS] whose upstream fetch obtains a response: if the upstream
    status is in 200-299 (206 included) and the [Content-Disposition] header
    can be built, the response has the upstream's status code, status text
    and body; for any other upstream status the response is HTTP 500 with
    the plain-text body
    [Proxy error: Upstream server responded with <status>: <statusText>]
    and the status text the host gives a 500 by default.  The status code of
    the response is the upstream's only if the upstream status is in 200-299
    or is 500. *)
Theorem upstream_status_mapping
        (rt : Runtime) (net : Network) (page : jsstring)
        (request : IncomingRequest) (target : jsstring)
        (log log' : Log) (response : Response) :
  in_method request <> js "OPTIONS" ->
  proxiedTo request target ->
  requestAccepted rt (upstreamRequestFor request target) = true ->
  fetchWithRetry net (upstreamRequestFor request target) 3 log
  = (log', Normal response) ->
  ((200 <= status response <= 299)%N ->
   forall encoded,
     encodeURIComponent (extractFilename rt target) = Some encoded ->
     legalHeaderValue rt
       (contentDisposition (extractFilename rt target) encoded) = true ->
     exists out,
       handleRequest rt net page request log = (log', Normal out)
       /\ status out = status response
       /\ statusText out = statusText response
       /\ body out = body response)
  /\ (~ (200 <= status response <= 299)%N ->
      handleRequest rt net page request log
      = (log',
         Normal {| status := 500;
                   statusText := defaultStatusText rt 500;
                   headers :=
                     [(js "content-type", js "text/plain;charset=UTF-8")];
                   body :=
                     Some (BodyText
                             (js "Proxy error: Upstream server responded with "
                              ++ decimal (status response) ++ js ": "
                              ++ statusText response)) |}))
  /\ (forall out,
         handleRequest rt net page request log = (log', Normal out) ->
         status out = status response ->
         (200 <= status response <= 299)%N \/ status response = 500%N).
Proof.
  intros Hmethod Hvalid Haccept Hfetch.
  apply jseqb_neq in Hmethod.
  rewrite (handleRequest_proxied rt net page request target Hvalid).
  unfold tryCatch.
  rewrite proxyDownload_run, Haccept, Hfetch. cbv zeta.
  split; [|split].
  - intros Hok encoded Henc Hlegal. apply ok_iff_2xx in Hok.
    rewrite Hok, Henc, Hlegal, Hmethod.
    eexists. split; [reflexivity|]. repeat split.
  - intros Hok. destruct (ok response) eqn:E; [|reflexivity].
    apply ok_iff_2xx in E. contradiction.
  - intros out. destruct (ok response) eqn:Hok.
    + intros _ _. left. now apply ok_iff_2xx.
    + intros H. injection H as <-. intros E. now right.
Qed.

Lemma upstream_status_mapping_witness :
  (exists out,
      handleRequest (referenceRuntime 0)
                    (answering (exampleResponse 206 "Partial Content")) []
                    (exampleRequest "GET" zipPath) []
      = ([Fetch zipUpstream], Normal out)
      /\ status out = 206%N
      /\ statusText out = js "Partial Content"
      /\ body out = Some (BodyStream [80; 75; 3; 4]%N))
  /\ handleRequest (referenceRuntime 0)
                   (answering (exampleResponse 404 "Not Found")) []
                   (exampleRequest "GET" zipPath) []
     = ([Fetch zipUpstream],
        Normal {| status := 500;
                  statusText := js "Internal Server Error";
                  headers :=
                    [(js "content-type", js "text/plain;charset=UTF-8")];
                  body :=
                    Some (BodyText
                            (js "Proxy error: Upstream server responded with 404: Not Found")) |}).
Proof.
  split.
  - destruct (upstream_status_mapping
                (referenceRuntime 0)
                (answering (exampleResponse 206 "Partial Content")) []
                (exampleRequest "GET" zipPath) zipURL [] [Fetch zipUpstream]
                (exampleResponse 206 "Partial Content"))
      as (Hrelay & _ & _).
    + intros E; vm_compute in E; discriminate E.
    + split; [intros E; vm_compute in E; discriminate E | split; reflexivity].
    + reflexivity.
    + reflexivity.
    + destruct (Hrelay ltac:(cbn [status exampleResponse]; lia)
                       (js "file.zip") eq_refl eq_refl)
        as (out & Hrun & Hstatus & Htext & Hbody).
      exists out. repeat split; assumption.
  - apply (upstream_status_mapping
             (referenceRuntime 0)
             (answering (exampleResponse 404 "Not Found")) []
             (exampleRequest "GET" zipPath) zipURL [] [Fetch zipUpstream]
             (exampleResponse 404 "Not Found")).
    + intros E; vm_compute in E; discriminate E.
    + split; [intros E; vm_compute in E; discriminate E | split; reflexivity].
    + reflexivity.
    + reflexivity.
    + cbn [status exampleResponse]. lia.
Defined.
